(** * go-macaron/csrf: a shallow embedding of csrf.go

    The development follows the layout of the Go package:
    - the data the handlers work on (requests, response writers, cookies,
      session values, the [csrf] struct and the [Options] struct);
    - the collaborators the package calls but does not define (header-key
      canonicalisation, date formatting, the keyed hash of the token codec);
    - the handler monad: explicit state passing with early return and panic;
    - [Generate] and [Validate], statement by statement;
    - the regular expression [domainReg] with a matcher for Go's
      unanchored [regexp.Match];
    - [FormatInt] for base 10;
    - the properties. *)

From Stdlib Require Import ZArith Lia Ascii String.
From stdpp Require Import base option list strings pretty gmap.

Local Open Scope string_scope.
Local Open Scope Z_scope.

(** ** Requests *)

(** [http.Header] and [url.Values] are both [map[string][]string]. *)
Abbreviation Values := (gmap string (list string)).

(** The part of [*http.Request] the package reads.  [Cookies] is the list
    of (name, value) pairs sent in the Cookie header, in order; [Form] is
    the parsed form the request carries (what [FormValue] reads after
    parsing). *)
Record Request := {
  Method : string;
  Host : string;
  Header : Values;
  Cookies : list (string * string);
  Form : Values;
}.

(** First value stored under a key, or the empty string:
    [if len(v) == 0 { return "" }; return v[0]]. *)
Definition firstValue (h : Values) (key : string) : string :=
  match h !! key with
  | Some (v :: _) => v
  | _ => ""
  end.

(** [r.Cookie(name)]: the first cookie of that name, [None] for
    [ErrNoCookie]. *)
Fixpoint findCookie (cs : list (string * string)) (name : string) : option string :=
  match cs with
  | [] => None
  | (n, v) :: rest => if decide (n = name) then Some v else findCookie rest name
  end.

(** ** Session values *)

(** [sess.Get] returns an [interface{}]; the handler only distinguishes the
    dynamic types [string] and [int64] from every other one.  [DOther]
    carries the name of any other dynamic type ([int], [bool], ...). *)
Inductive Dyn :=
| DString (s : string)
| DInt64 (i : Z)
| DOther (typeName : string).

(** A session store; a key that is not set reads as [nil]. *)
Abbreviation Store := (gmap string Dyn).

(** ** Responses *)

Record Cookie := {
  cName : string;
  cValue : string;
  cPath : string;
  cDomain : string;
  cExpires : Z;
  cRawExpires : string;
  cMaxAge : Z;
  cSecure : bool;
  cHttpOnly : bool;
  cRaw : string;
  cUnparsed : list string;
}.

(** The response writer: header map, status line (absent until
    [WriteHeader]), body written so far, and the cookies handed to
    [http.SetCookie], each standing for the Set-Cookie line it adds. *)
Record ResponseWriter := {
  rwHeader : Values;
  rwStatus : option Z;
  rwBody : string;
  rwCookies : list Cookie;
}.

Definition newRecorder : ResponseWriter :=
  {| rwHeader := ∅; rwStatus := None; rwBody := ""; rwCookies := [] |}.

Definition setHeaderMap (w : ResponseWriter) (h : Values) : ResponseWriter :=
  {| rwHeader := h; rwStatus := rwStatus w; rwBody := rwBody w;
     rwCookies := rwCookies w |}.

(** [WriteHeader]: only the first call sets the status. *)
Definition WriteHeader (w : ResponseWriter) (code : Z) : ResponseWriter :=
  {| rwHeader := rwHeader w;
     rwStatus := match rwStatus w with Some c => Some c | None => Some code end;
     rwBody := rwBody w; rwCookies := rwCookies w |}.

(** [fmt.Fprintln(w, s)]; a write before [WriteHeader] sends status 200. *)
Definition Fprintln (w : ResponseWriter) (s : string) : ResponseWriter :=
  {| rwHeader := rwHeader w;
     rwStatus := match rwStatus w with Some c => Some c | None => Some 200 end;
     rwBody := rwBody w +:+ s +:+ String "010"%char "";
     rwCookies := rwCookies w |}.

Definition pushCookie (w : ResponseWriter) (c : Cookie) : ResponseWriter :=
  {| rwHeader := rwHeader w; rwStatus := rwStatus w; rwBody := rwBody w;
     rwCookies := rwCookies w ++ [c] |}.

Definition StatusBadRequest : Z := 400.

(** ** The structs of the package *)

(** A [func(w http.ResponseWriter)]: what it does to the writer. *)
Abbreviation ErrorFn := (ResponseWriter → ResponseWriter).

(** The fields of [csrf] carry the prefix [c_] and the fields [Header],
    [Form] and [Cookie] of [Options] the prefix [o_], to keep them apart
    from each other and from the fields of [Request]. *)
Record csrf := {
  c_Header : string;
  c_Form : string;
  c_Cookie : string;
  c_Token : string;
  c_ID : string;
  c_Secret : string;
  c_ErrorFunc : option ErrorFn;   (* [None] is the nil func *)
}.

Record Options := {
  Secret : string;
  o_Header : string;
  o_Form : string;
  o_Cookie : string;
  SessionKey : string;
  SetHeader : bool;
  SetCookie : bool;
  Secure : bool;
  ErrorFunc : option ErrorFn;     (* [None] is the nil func *)
}.

Definition set_o_Header (o : Options) (v : string) : Options :=
  {| Secret := Secret o; o_Header := v; o_Form := o_Form o;
     o_Cookie := o_Cookie o; SessionKey := SessionKey o;
     SetHeader := SetHeader o; SetCookie := SetCookie o; Secure := Secure o;
     ErrorFunc := ErrorFunc o |}.

Definition set_o_Form (o : Options) (v : string) : Options :=
  {| Secret := Secret o; o_Header := o_Header o; o_Form := v;
     o_Cookie := o_Cookie o; SessionKey := SessionKey o;
     SetHeader := SetHeader o; SetCookie := SetCookie o; Secure := Secure o;
     ErrorFunc := ErrorFunc o |}.

Definition set_o_Cookie (o : Options) (v : string) : Options :=
  {| Secret := Secret o; o_Header := o_Header o; o_Form := o_Form o;
     o_Cookie := v; SessionKey := SessionKey o;
     SetHeader := SetHeader o; SetCookie := SetCookie o; Secure := Secure o;
     ErrorFunc := ErrorFunc o |}.

Definition set_ErrorFunc (o : Options) (f : option ErrorFn) : Options :=
  {| Secret := Secret o; o_Header := o_Header o; o_Form := o_Form o;
     o_Cookie := o_Cookie o; SessionKey := SessionKey o;
     SetHeader := SetHeader o; SetCookie := SetCookie o; Secure := Secure o;
     ErrorFunc := f |}.

Definition set_c_ID (c : csrf) (v : string) : csrf :=
  {| c_Header := c_Header c; c_Form := c_Form c; c_Cookie := c_Cookie c;
     c_Token := c_Token c; c_ID := v; c_Secret := c_Secret c;
     c_ErrorFunc := c_ErrorFunc c |}.

Definition set_c_Token (c : csrf) (v : string) : csrf :=
  {| c_Header := c_Header c; c_Form := c_Form c; c_Cookie := c_Cookie c;
     c_Token := v; c_ID := c_ID c; c_Secret := c_Secret c;
     c_ErrorFunc := c_ErrorFunc c |}.

(** ** Library collaborators

    Functions of Go's standard library that the package calls and whose
    results it passes on unchanged.  Times are Unix seconds. *)
Record Lib := {
  (** [textproto.CanonicalMIMEHeaderKey], applied by [Header.Get] and
      [Header.Add] to the key *)
  CanonicalMIMEHeaderKey : string → string;
  (** [time.Now()] for the request being served *)
  Now : Z;
  (** [t.AddDate(years, months, days)] *)
  AddDate : Z → Z → Z → Z → Z;
  (** [t.Format(layout)] *)
  Format : Z → string → string;
  (** keyed hash of a message under a key, and the fixed-format text
      encoding of a digest; both used by the token codec *)
  mac : string → string → string;
  encode : string → string;
}.

Definition UnixDate : string := "Mon Jan _2 15:04:05 MST 2006".

(** ** The trace of calls a handler makes *)

Inductive Event :=
| SessionGet (key : string)
| ReqHeaderGet (key : string)
| ReqCookie (name : string)
| ReqFormValue (key : string)
| CallGenerateToken (secret id action : string)
| CallValidToken (t : string)
| CallError
| HttpError (msg : string) (code : Z)
| HttpSetCookie (c : Cookie)
| RespHeaderAdd (key value : string)
| CtxMapTo (p : nat).

(** ** The state a handler runs in *)

(** [opts] is the struct behind the [*Options] that [Generate] closes over:
    every request served by the handler sees the same one.  [heap] holds
    the [csrf] structs the handler allocates, a pointer being an index;
    [ctxCSRF] is the pointer [ctx.MapTo] registered for the [CSRF]
    interface, through which later handlers of the request see the
    struct. *)
Record World := {
  opts : Options;
  heap : list csrf;
  ctxCSRF : option nat;
  resp : ResponseWriter;
  trace : list Event;
}.

Definition set_opts (w : World) (o : Options) : World :=
  {| opts := o; heap := heap w; ctxCSRF := ctxCSRF w; resp := resp w;
     trace := trace w |}.
Definition set_heap (w : World) (h : list csrf) : World :=
  {| opts := opts w; heap := h; ctxCSRF := ctxCSRF w; resp := resp w;
     trace := trace w |}.
Definition set_ctxCSRF (w : World) (p : option nat) : World :=
  {| opts := opts w; heap := heap w; ctxCSRF := p; resp := resp w;
     trace := trace w |}.
Definition set_resp (w : World) (r : ResponseWriter) : World :=
  {| opts := opts w; heap := heap w; ctxCSRF := ctxCSRF w; resp := r;
     trace := trace w |}.
Definition set_trace (w : World) (t : list Event) : World :=
  {| opts := opts w; heap := heap w; ctxCSRF := ctxCSRF w; resp := resp w;
     trace := t |}.

(** How a statement ends: it falls through with a value, executes
    [return], or panics. *)
Inductive Outcome (A : Type) :=
| Normal (a : A)
| Returned
| Panicked.
Arguments Normal {A} a.
Arguments Returned {A}.
Arguments Panicked {A}.

Definition M (A : Type) : Type := World → Outcome A * World.

Definition ret {A} (a : A) : M A := λ w, (Normal a, w).

Definition bind {A B} (m : M A) (f : A → M B) : M B := λ w,
  match m w with
  | (Normal a, w') => f a w'
  | (Returned, w') => (Returned, w')
  | (Panicked, w') => (Panicked, w')
  end.

Declare Scope handler_scope.
Delimit Scope handler_scope with handler.
Notation "x <- m ;; k" := (bind m (λ x, k))
  (at level 100, m at next level, right associativity) : handler_scope.
Notation "m ;;; k" := (bind m (λ _, k))
  (at level 100, right associativity) : handler_scope.
Local Open Scope handler_scope.

Definition returnM {A} : M A := λ w, (Returned, w).
Definition panic {A} : M A := λ w, (Panicked, w).
Definition skip : M unit := ret tt.

Definition getOpts : M Options := λ w, (Normal (opts w), w).
Definition putOpts (o : Options) : M unit := λ w, (Normal tt, set_opts w o).
Definition emit (e : Event) : M unit := λ w,
  (Normal tt, set_trace w (trace w ++ [e])).
Definition getResp : M ResponseWriter := λ w, (Normal (resp w), w).
Definition putResp (r : ResponseWriter) : M unit := λ w,
  (Normal tt, set_resp w r).

(** [&csrf{...}] *)
Definition alloc (c : csrf) : M nat := λ w,
  (Normal (length (heap w)), set_heap w (heap w ++ [c])).
(** Reading and writing through a pointer; a dangling one panics. *)
Definition load (p : nat) : M csrf := λ w,
  match heap w !! p with
  | Some c => (Normal c, w)
  | None => (Panicked, w)
  end.
Definition store (p : nat) (c : csrf) : M unit := λ w,
  match heap w !! p with
  | Some _ => (Normal tt, set_heap w (<[p:=c]> (heap w)))
  | None => (Panicked, w)
  end.

(** [ctx.MapTo]: register the pointer [x] for the interface [CSRF]. *)
Definition MapTo (p : nat) : M unit :=
  emit (CtxMapTo p) ;;; λ w, (Normal tt, set_ctxCSRF w (Some p)).

(** The capability later handlers of the request are given: the struct
    the registered pointer leads to, as it is when the handler is done. *)
Definition published (w : World) : option csrf :=
  p ← ctxCSRF w; heap w !! p.

(** ** Regular expressions, as far as [domainReg] needs them *)

Inductive regex :=
| Empty                          (* matches the empty string *)
| Lit (c : ascii)                (* one given character *)
| Class (p : ascii → bool)       (* one character of a class *)
| Cat (r1 r2 : regex)
| Alt (r1 r2 : regex)
| Star (r : regex)
| BeginText                      (* ^ without the m flag *)
| EndText.                       (* $ without the m flag *)

Definition Plus (r : regex) : regex := Cat r (Star r).
Definition Opt (r : regex) : regex := Alt r Empty.

(** What a match of an expression is.  [Matches r bot s bot' s']: [r]
    matches a prefix of [s] and leaves [s']; [bot] tells whether [s]
    starts at the beginning of the text, [bot'] the same for [s']. *)
Inductive Matches : regex → bool → list ascii → bool → list ascii → Prop :=
| MEmpty bot s : Matches Empty bot s bot s
| MLit c bot s : Matches (Lit c) bot (c :: s) false s
| MClass (p : ascii → bool) a bot s :
    p a = true → Matches (Class p) bot (a :: s) false s
| MCat r1 r2 bot s bot1 s1 bot2 s2 :
    Matches r1 bot s bot1 s1 → Matches r2 bot1 s1 bot2 s2 →
    Matches (Cat r1 r2) bot s bot2 s2
| MAltL r1 r2 bot s bot' s' :
    Matches r1 bot s bot' s' → Matches (Alt r1 r2) bot s bot' s'
| MAltR r1 r2 bot s bot' s' :
    Matches r2 bot s bot' s' → Matches (Alt r1 r2) bot s bot' s'
| MStarStop r bot s : Matches (Star r) bot s bot s
| MStarMore r bot s bot1 s1 bot2 s2 :
    Matches r bot s bot1 s1 → Matches (Star r) bot1 s1 bot2 s2 →
    Matches (Star r) bot s bot2 s2
| MBeginText s : Matches BeginText true s true s
| MEndText bot : Matches EndText bot [] bot [].

(** The loop of a starred expression: [step] matches the expression
    once.  It tries one more iteration before it tries to stop, and only
    iterates on a match that consumed input; [n] bounds the number of
    iterations and is taken as the length of the text. *)
Fixpoint starLoop (step : bool → list ascii → (bool → list ascii → bool) → bool)
    (k : bool → list ascii → bool) (n : nat) (bot : bool) (s : list ascii) : bool :=
  if match n with
     | O => false
     | S n' =>
         step bot s
           (λ bot' s',
              if (length s' <? length s)%nat then starLoop step k n' bot' s'
              else false)
     end
  then true
  else k bot s.

(** [matchK r bot s k]: can [r] match a prefix of [s] such that the
    continuation [k] accepts what is left? *)
Fixpoint matchK (r : regex) (bot : bool) (s : list ascii)
    (k : bool → list ascii → bool) : bool :=
  match r with
  | Empty => k bot s
  | Lit c =>
      match s with
      | a :: s' => if bool_decide (a = c) then k false s' else false
      | [] => false
      end
  | Class p =>
      match s with
      | a :: s' => if p a then k false s' else false
      | [] => false
      end
  | Cat r1 r2 => matchK r1 bot s (λ b s', matchK r2 b s' k)
  | Alt r1 r2 => if matchK r1 bot s k then true else matchK r2 bot s k
  | Star r1 => starLoop (matchK r1) k (length s) bot s
  | BeginText => if bot then k bot s else false
  | EndText =>
      match s with
      | [] => k bot s
      | _ :: _ => false
      end
  end.

(** A match may start at any position of the text. *)
Fixpoint searchFrom (r : regex) (bot : bool) (s : list ascii) : bool :=
  if matchK r bot s (λ _ _, true) then true
  else match s with
       | [] => false
       | _ :: s' => searchFrom r false s'
       end.

(** [regexp.Match(pattern, b)] for a pattern that compiles: whether the
    text contains a match, and a nil error. *)
Definition regexp_Match (pattern : regex) (b : string) : bool * option string :=
  (searchFrom pattern true (list_ascii_of_string b), None).

Definition inRange (lo hi : nat) (a : ascii) : bool :=
  (lo <=? nat_of_ascii a)%nat && (nat_of_ascii a <=? hi)%nat.

(** The two character classes of the pattern: lower-case letters and
    digits, and the same with the hyphen. *)
Definition alnum (a : ascii) : bool := inRange 97 122 a || inRange 48 57 a.
Definition alnumDash (a : ascii) : bool := alnum a || bool_decide (a = "-"%char).

(** One label: one or more [alnum], then either any number of [alnum], or
    any number of [alnumDash] followed by one [alnum]. *)
Definition labelReg : regex :=
  Cat (Plus (Class alnum))
      (Alt (Star (Class alnum))
           (Cat (Star (Class alnumDash)) (Class alnum))).

(** What stands between the two slashes of [domainReg]: beginning of
    text, an optional dot, a label, any number of a dot and a label, end
    of text. *)
Definition domainBody : regex :=
  Cat BeginText
   (Cat (Opt (Lit "."%char))
    (Cat labelReg
     (Cat (Star (Cat (Lit "."%char) labelReg))
      EndText))).

(** The text of the constant, as written in the source. *)
Definition domainRegText : string :=
  "/^\.?[a-z\d]+(?:(?:[a-z\d]*)|(?:[a-z\d\-]*[a-z\d]))(?:\.[a-z\d]+(?:(?:[a-z\d]*)|(?:[a-z\d\-]*[a-z\d])))*$/".

(** The constant [domainReg], parsed; its first and last characters are
    slashes, which a Go pattern takes literally. *)
Definition domainReg : regex :=
  Cat (Lit "/"%char) (Cat domainBody (Lit "/"%char)).

(** ** Strings *)

(** [strings.Split(s, sep)] for a separator of one character. *)
Fixpoint Split (s : string) (sep : ascii) : list string :=
  match s with
  | EmptyString => [""]
  | String a s' =>
      if decide (a = sep) then "" :: Split s' sep
      else match Split s' sep with
           | piece :: rest => String a piece :: rest
           | [] => [String a ""]
           end
  end.

(** ** [strconv.FormatInt(i, 10)] *)

Definition uint64 (z : Z) : Z := z mod 2 ^ 64.

Definition digitChar (d : Z) : ascii := ascii_of_nat (48 + Z.to_nat d).

(** The digit loop of [formatBits] for base 10: the least significant
    digit goes in front of what is already written.  A [uint64] has at
    most twenty digits. *)
Fixpoint formatBits (fuel : nat) (u : Z) (acc : string) : string :=
  match fuel with
  | O => acc
  | S fuel' =>
      if u <? 10 then String (digitChar u) acc
      else formatBits fuel' (u / 10) (String (digitChar (u mod 10)) acc)
  end.

Definition FormatInt (i : Z) : string :=
  let neg := i <? 0 in
  let u := uint64 i in
  let u := if neg then uint64 (- u) else u in
  let digits := formatBits 20 u "" in
  if neg then String "-"%char digits else digits.

(** ** The interface [CSRF] *)

Module CSRF.
Class t (T : Type) := {
  GetHeaderName : T → string;
  GetFormName : T → string;
  GetCookieName : T → string;
  GetToken : T → string;
  ValidToken : T → string → bool;
  (** what the call does to the writer; [None] when it panics *)
  Error : T → ResponseWriter → option ResponseWriter;
}.
End CSRF.

Section Package.
Context (L : Lib).

(** ** The token codec *)

(** Modelled from the spec: the package-level function [GenerateToken] is
    called by csrf.go but its file is not among the sources.  The spec
    (section 4.1) derives the token by a keyed hash over the identity
    followed by the purpose tag, keyed by the secret, in a fixed-format
    text encoding; derivation is deterministic. *)
Definition GenerateToken (secret id action : string) : string :=
  encode L (mac L secret (id +:+ action)).

(** Modelled from the spec: the package-level function [ValidToken] is
    called by csrf.go but its file is not among the sources.  The spec
    (section 4.1) validates by recomputing the expected token from the
    same secret, identity and purpose tag and comparing it with the
    candidate. *)
Definition ValidToken (t secret id action : string) : bool :=
  bool_decide (t = GenerateToken secret id action).

(** ** Methods of [*csrf] *)

Definition csrf_GetHeaderName (c : csrf) : string := c_Header c.
Definition csrf_GetFormName (c : csrf) : string := c_Form c.
Definition csrf_GetCookieName (c : csrf) : string := c_Cookie c.
Definition csrf_GetToken (c : csrf) : string := c_Token c.

Definition csrf_ValidToken (c : csrf) (t : string) : bool :=
  ValidToken t (c_Secret c) (c_ID c) "POST".

(** Calling a nil [ErrorFunc] panics. *)
Definition csrf_Error (c : csrf) (w : ResponseWriter) : option ResponseWriter :=
  match c_ErrorFunc c with
  | Some f => Some (f w)
  | None => None
  end.

#[export] Instance csrf_CSRF : CSRF.t csrf := {|
  CSRF.GetHeaderName := csrf_GetHeaderName;
  CSRF.GetFormName := csrf_GetFormName;
  CSRF.GetCookieName := csrf_GetCookieName;
  CSRF.GetToken := csrf_GetToken;
  CSRF.ValidToken := csrf_ValidToken;
  CSRF.Error := csrf_Error;
|}.

(** ** Calls on the request, the session and the response *)

(** [h.Get(key)], [h.Set(key, value)], [h.Add(key, value)] *)
Definition header_Get (h : Values) (key : string) : string :=
  firstValue h (CanonicalMIMEHeaderKey L key).
Definition header_Set (h : Values) (key value : string) : Values :=
  <[CanonicalMIMEHeaderKey L key := [value]]> h.
Definition header_Add (h : Values) (key value : string) : Values :=
  <[CanonicalMIMEHeaderKey L key :=
      (default [] (h !! CanonicalMIMEHeaderKey L key) ++ [value])%list]> h.

(** [http.Error(w, msg, code)] *)
Definition http_Error (w : ResponseWriter) (msg : string) (code : Z) : ResponseWriter :=
  let h := header_Set (rwHeader w) "Content-Type" "text/plain; charset=utf-8" in
  let h := header_Set h "X-Content-Type-Options" "nosniff" in
  Fprintln (WriteHeader (setHeaderMap w h) code) msg.

Definition sessGet (sess : Store) (key : string) : M (option Dyn) :=
  emit (SessionGet key) ;;; ret (sess !! key).

Definition reqHeaderGet (r : Request) (key : string) : M string :=
  emit (ReqHeaderGet key) ;;; ret (header_Get (Header r) key).

Definition reqCookie (r : Request) (name : string) : M (option string) :=
  emit (ReqCookie name) ;;; ret (findCookie (Cookies r) name).

(** [r.FormValue(key)] *)
Definition reqFormValue (r : Request) (key : string) : M string :=
  emit (ReqFormValue key) ;;; ret (firstValue (Form r) key).

Definition callGenerateToken (secret id action : string) : M string :=
  emit (CallGenerateToken secret id action) ;;;
  ret (GenerateToken secret id action).

Definition callValidToken `{CSRF.t T} (x : T) (t : string) : M bool :=
  emit (CallValidToken t) ;;; ret (CSRF.ValidToken x t).

Definition callError `{CSRF.t T} (x : T) : M unit :=
  emit CallError ;;;
  w <- getResp ;;
  match CSRF.Error x w with
  | Some w' => putResp w'
  | None => panic
  end.

Definition httpError (msg : string) (code : Z) : M unit :=
  emit (HttpError msg code) ;;;
  w <- getResp ;;
  putResp (http_Error w msg code).

Definition httpSetCookie (c : Cookie) : M unit :=
  emit (HttpSetCookie c) ;;;
  w <- getResp ;;
  putResp (pushCookie w c).

Definition respHeaderAdd (key value : string) : M unit :=
  emit (RespHeaderAdd key value) ;;;
  w <- getResp ;;
  putResp (setHeaderMap w (header_Add (rwHeader w) key value)).

(** ** [Generate] *)

(** The function literal that replaces a nil [ErrorFunc]. *)
Definition defaultErrorFunc : ErrorFn :=
  λ w, http_Error w "Invalid csrf token." StatusBadRequest.

(** Lines 123-136: empty fields of [*opts] are given their defaults, in
    the struct itself. *)
Definition fillDefaults : M unit :=
  o <- getOpts ;;
  (if decide (o_Header o = "") then putOpts (set_o_Header o "X-CSRFToken")
   else skip) ;;;
  o <- getOpts ;;
  (if decide (o_Form o = "") then putOpts (set_o_Form o "_csrf")
   else skip) ;;;
  o <- getOpts ;;
  (if decide (o_Cookie o = "") then putOpts (set_o_Cookie o "_csrf")
   else skip) ;;;
  o <- getOpts ;;
  (if decide (ErrorFunc o = None)
   then putOpts (set_ErrorFunc o (Some defaultErrorFunc))
   else skip).

(** Lines 168-191: a new token, and its cookie when [SetCookie] is on. *)
Definition mintToken (r : Request) (x : nat) : M unit :=
  c <- load x ;;
  tok <- callGenerateToken (c_Secret c) (c_ID c) "POST" ;;
  (c <- load x ;; store x (set_c_Token c tok)) ;;;
  o <- getOpts ;;
  if SetCookie o then
    let expire := AddDate L (Now L) 0 0 1 in
    match Split (Host r) ":"%char !! 0%nat with
    | None => panic
    | Some domain =>
        let '(ok, err) := regexp_Match domainReg domain in
        let domain :=
          if negb ok || bool_decide (err ≠ None) then "" else domain in
        c <- load x ;;
        httpSetCookie
          {| cName := o_Cookie o;
             cValue := c_Token c;
             cPath := "/";
             cDomain := domain;
             cExpires := expire;
             cRawExpires := Format L expire UnixDate;
             cMaxAge := 0;
             cSecure := Secure o;
             cHttpOnly := false;
             cRaw := o_Cookie o +:+ "=" +:+ c_Token c;
             cUnparsed := ["token=" +:+ c_Token c] |}
    end
  else skip.

(** The handler [Generate(opts)] returns, for one request. *)
Definition Generate (r : Request) (sess : Store) : M unit :=
  fillDefaults ;;;
  o <- getOpts ;;
  x <- alloc {| c_Secret := Secret o;
                c_Header := o_Header o;
                c_Form := o_Form o;
                c_Cookie := o_Cookie o;
                c_ErrorFunc := ErrorFunc o;
                (* the fields the literal leaves out keep their zero value *)
                c_Token := "";
                c_ID := "" |} ;;
  MapTo x ;;;
  uid <- sessGet sess (SessionKey o) ;;
  match uid with
  | None => returnM
  | Some (DString s) => c <- load x ;; store x (set_c_ID c s)
  | Some (DInt64 i) => c <- load x ;; store x (set_c_ID c (FormatInt i))
  | Some (DOther _) => returnM
  end ;;;
  (if decide (Method r ≠ "GET") then returnM
   else
     origin <- reqHeaderGet r "Origin" ;;
     if decide (origin ≠ "") then returnM else skip) ;;;
  o <- getOpts ;;
  ex <- reqCookie r (o_Cookie o) ;;
  match ex with
  | Some v =>
      if decide (v ≠ "") then c <- load x ;; store x (set_c_Token c v)
      else mintToken r x
  | None => mintToken r x
  end ;;;
  o <- getOpts ;;
  if SetHeader o then
    c <- load x ;;
    respHeaderAdd (o_Header o) (c_Token c)
  else skip.

(** ** [Validate] *)

Definition Validate `{CSRF.t T} (r : Request) (x : T) : M unit :=
  token <- reqHeaderGet r (CSRF.GetHeaderName x) ;;
  (if decide (token ≠ "") then
     ok <- callValidToken x token ;;
     (if negb ok then callError x else skip) ;;;
     returnM
   else skip) ;;;
  token <- reqFormValue r (CSRF.GetFormName x) ;;
  (if decide (token ≠ "") then
     ok <- callValidToken x token ;;
     (if negb ok then callError x else skip) ;;;
     returnM
   else skip) ;;;
  httpError "Bad Request" StatusBadRequest ;;;
  returnM.

(** ** Running handlers *)

(** A request starts with the struct [opts] as earlier requests left it,
    its own response writer, and nothing allocated or mapped. *)
Definition startWorld (o : Options) (w : ResponseWriter) : World :=
  {| opts := o; heap := []; ctxCSRF := None; resp := w; trace := [] |}.

(** The world a handler leaves, and whether it panicked on the way. *)
Definition run {A} (m : M A) (w : World) : World := snd (m w).
Definition panics {A} (m : M A) (w : World) : bool :=
  match fst (m w) with
  | Panicked => true
  | _ => false
  end.

(** One handler of the chain: its [return] ends that handler only. *)
Definition handler (m : M unit) : M unit := λ w,
  match m w with
  | (Returned, w') => (Normal tt, w')
  | other => other
  end.

(** The injector hands a later handler the value mapped for [CSRF]; it
    panics when nothing is mapped. *)
Definition injectCSRF : M csrf := λ w,
  match published w with
  | Some x => (Normal x, w)
  | None => (Panicked, w)
  end.

(** A route guarded by [Validate] behind the middleware [Generate], as
    the tests and the README set it up. *)
Definition guardedRoute (r : Request) (sess : Store) : M unit :=
  handler (Generate r sess) ;;;
  x <- injectCSRF ;;
  handler (Validate r x).

End Package.

(** ** [response.Error] of the vendored package go.wandrs.dev/http *)

(** An argument of type [interface{}] as [Error] looks at it: nil, a value
    whose type implements [error] (with what its [Error()] returns and its
    rendering under the verb %v), or a value of any other type (with its
    rendering under %v). *)
Inductive Content :=
| CNil
| CError (msg : string) (text : string)
| CValue (text : string).

(** [fmt.Sprintf("%v", c)] *)
Definition fmtV (c : Content) : string :=
  match c with
  | CNil => "<nil>"
  | CError _ text => text
  | CValue text => text
  end.

(** The struct [response]: the embedded [http.ResponseWriter], whether the
    logger has a sink, and the calls of [logger.Error] so far, each with
    the text handed to [fmt.Errorf] and the title. *)
Record response := {
  rWriter : ResponseWriter;
  rSink : bool;
  rLogged : list (string * string);
}.

Definition logError (w : response) (v title : string) : response :=
  {| rWriter := rWriter w; rSink := rSink w;
     rLogged := (rLogged w ++ [(v, title)])%list |}.

(** [(w *response) Error(status, contents...)], lines 133-158;
    [StatusText] is [http.StatusText]. *)
Definition response_Error (L : Lib) (StatusText : Z → string) (w : response)
    (status : Z) (contents : list Content) : response :=
  let v := StatusText status in
  let '(title, obj) :=
    match contents with
    | c0 :: c1 :: _ => (fmtV c0, c1)        (* len(contents) > 1 *)
    | c0 :: [] => ("", c0)                  (* len(contents) > 0 *)
    | [] => ("", CNil)
    end in
  let v :=
    match obj with
    | CError msg _ => msg                   (* obj.(error) succeeds *)
    | _ => fmtV obj
    end in
  let w :=
    if bool_decide (title ≠ "") && rSink w then logError w v title else w in
  {| rWriter := http_Error L (rWriter w) v status;
     rSink := rSink w; rLogged := rLogged w |}.

(** The text [Error] writes for the content it takes as the error. *)
Definition errorText (obj : Content) : string :=
  match obj with
  | CError msg _ => msg
  | _ => fmtV obj
  end.

(** ** A concrete instance of the collaborators

    Used to run the handlers on examples.  Header keys made of letters,
    digits and hyphens are canonicalised as Go does (upper case at the
    start and after a hyphen, lower case elsewhere); a day is 86400
    seconds; the keyed hash and the encoding are stand-ins that keep key
    and message readable. *)

Definition toUpper (a : ascii) : ascii :=
  if inRange 97 122 a then ascii_of_nat (nat_of_ascii a - 32) else a.
Definition toLower (a : ascii) : ascii :=
  if inRange 65 90 a then ascii_of_nat (nat_of_ascii a + 32) else a.

Fixpoint canonical (upper : bool) (s : string) : string :=
  match s with
  | EmptyString => EmptyString
  | String a s' =>
      String (if upper then toUpper a else toLower a)
             (canonical (bool_decide (a = "-"%char)) s')
  end.

Definition sampleLib : Lib :=
  {| CanonicalMIMEHeaderKey := canonical true;
     Now := 1400000000;
     AddDate := λ t years months days, t + 86400 * days;
     Format := λ t layout, FormatInt t;
     mac := λ key msg, key +:+ "/" +:+ msg;
     encode := λ digest, "h:" +:+ digest |}.

(** The set-up of the package's tests: secret "token123", identity under
    "userID", everything else left to the defaults. *)
Definition testOptions : Options :=
  {| Secret := "token123"; o_Header := ""; o_Form := ""; o_Cookie := "";
     SessionKey := "userID"; SetHeader := false; SetCookie := false;
     Secure := false; ErrorFunc := None |}.

(** The same with the cookie and the header switched on. *)
Definition cookieOptions : Options :=
  {| Secret := "token123"; o_Header := ""; o_Form := ""; o_Cookie := "";
     SessionKey := "userID"; SetHeader := true; SetCookie := true;
     Secure := false; ErrorFunc := None |}.

(** The custom callback of [Test_ValidateCustomError]. *)
Definition customError (L : Lib) : ErrorFn := λ w, http_Error L w "custom error" 422.

Definition customOptions : Options :=
  set_ErrorFunc testOptions (Some (customError sampleLib)).

(** Sessions: after the login of the tests, with an [int64] identity,
    with an identity of another type, and without identity. *)
Definition loggedIn : Store := {[ "userID" := DString "123456" ]}.
Definition loggedInInt : Store := {[ "userID" := DInt64 (-42) ]}.
Definition loggedInOther : Store := {[ "userID" := DOther "int" ]}.
Definition anonymous : Store := ∅.

Definition sessionCookie : string * string :=
  ("MacaronSession", "0123456789abcdef").

Definition getPrivate : Request :=
  {| Method := "GET"; Host := "example.com:8080"; Header := ∅;
     Cookies := [sessionCookie]; Form := ∅ |}.

Definition getPrivateAgain : Request :=
  {| Method := "GET"; Host := "example.com:8080"; Header := ∅;
     Cookies := [sessionCookie; ("_csrf", "earlier-token")]; Form := ∅ |}.

Definition postPrivate : Request :=
  {| Method := "POST"; Host := "example.com:8080"; Header := ∅;
     Cookies := [sessionCookie]; Form := ∅ |}.

Definition postWithHeader (token : string) : Request :=
  {| Method := "POST"; Host := "example.com:8080";
     Header := {[ "X-Csrftoken" := [token] ]};
     Cookies := [sessionCookie];
     Form := {[ "_csrf" := ["from-the-form"] ]} |}.

Definition postWithForm (token : string) : Request :=
  {| Method := "POST"; Host := "example.com:8080"; Header := ∅;
     Cookies := [sessionCookie]; Form := {[ "_csrf" := [token] ]} |}.

(** The token the sample codec derives for the tests' identity, and the
    capability a GET by that identity publishes under [testOptions]. *)
Definition issuedToken : string := "h:token123/123456POST".

Definition issuedCapability : csrf :=
  {| c_Header := "X-CSRFToken"; c_Form := "_csrf"; c_Cookie := "_csrf";
     c_Token := issuedToken; c_ID := "123456"; c_Secret := "token123";
     c_ErrorFunc := Some (defaultErrorFunc sampleLib) |}.

(** The cookie that GET sets under [cookieOptions]. *)
Definition issuedCookie : Cookie :=
  {| cName := "_csrf"; cValue := issuedToken; cPath := "/"; cDomain := "";
     cExpires := 1400086400; cRawExpires := "1400086400"; cMaxAge := 0;
     cSecure := false; cHttpOnly := false;
     cRaw := "_csrf=h:token123/123456POST";
     cUnparsed := ["token=h:token123/123456POST"] |}.

(** A later GET that presents that cookie. *)
Definition getPrivateWithIssuedCookie : Request :=
  {| Method := "GET"; Host := "example.com:8080"; Header := ∅;
     Cookies := [sessionCookie; ("_csrf", issuedToken)]; Form := ∅ |}.

(** A few entries of [http.StatusText], and a [response] nothing was
    written to, with a logger that has a sink. *)
Definition sampleStatusText (code : Z) : string :=
  if code =? 400 then "Bad Request"
  else if code =? 404 then "Not Found"
  else if code =? 500 then "Internal Server Error"
  else "".

Definition freshResponse : response :=
  {| rWriter := newRecorder; rSink := true; rLogged := [] |}.

(** The capability published under [customOptions] for a request without
    identity, as the POSTs of [Test_ValidateCustomError] are. *)
Definition customCapability : csrf :=
  {| c_Header := "X-CSRFToken"; c_Form := "_csrf"; c_Cookie := "_csrf";
     c_Token := ""; c_ID := ""; c_Secret := "token123";
     c_ErrorFunc := Some (customError sampleLib) |}.

(** ** Statement helpers *)

(** [*opts] once every empty field has its default. *)
Definition defaulted (L : Lib) (o : Options) : Options :=
  {| Secret := Secret o;
     o_Header := if decide (o_Header o = "") then "X-CSRFToken" else o_Header o;
     o_Form := if decide (o_Form o = "") then "_csrf" else o_Form o;
     o_Cookie := if decide (o_Cookie o = "") then "_csrf" else o_Cookie o;
     SessionKey := SessionKey o;
     SetHeader := SetHeader o;
     SetCookie := SetCookie o;
     Secure := Secure o;
     ErrorFunc := Some (default (defaultErrorFunc L) (ErrorFunc o)) |}.

(** The world [Generate] leaves for a request that arrives with the
    options struct [o] and the response writer [w0]. *)
Definition afterGenerate (L : Lib) (r : Request) (sess : Store)
    (o : Options) (w0 : ResponseWriter) : World :=
  run (Generate L r sess) (startWorld o w0).

(** The events a handler added to the trace. *)
Definition newEvents (before after : World) : list Event :=
  drop (length (trace before)) (trace after).

Definition isValidation (e : Event) : bool :=
  match e with
  | CallValidToken _ => true
  | _ => false
  end.

Definition isSessionGet (e : Event) : bool :=
  match e with
  | SessionGet _ => true
  | _ => false
  end.

(** The identity [Generate] resolves from what the session returns: the
    cases of the type switch that do not return. *)
Definition resolved (uid : option Dyn) : option string :=
  match uid with
  | Some (DString s) => Some s
  | Some (DInt64 i) => Some (FormatInt i)
  | _ => None
  end.

(** The reading of the codec's third input as the request's method:
    every derivation [Generate] performs for the request passes the
    method of that request. *)
Definition derivesWithRequestMethod (L : Lib) (r : Request) (sess : Store)
    (o : Options) (w0 : ResponseWriter) : Prop :=
  ∀ secret id action,
    CallGenerateToken secret id action ∈ trace (afterGenerate L r sess o w0) →
    action = Method r.

(** ** Symbolic execution of handlers *)

Ltac munfold :=
  unfold afterGenerate, newEvents, run, panics, Generate, mintToken, Validate;
  unfold MapTo, sessGet, reqHeaderGet, reqCookie, reqFormValue,
    callGenerateToken, callValidToken, callError, httpError, httpSetCookie,
    respHeaderAdd;
  unfold getOpts, putOpts, emit, getResp, putResp, alloc, load, store,
    returnM, panic, skip;
  unfold bind, ret.

Ltac mcbn :=
  cbn [startWorld set_opts set_heap set_ctxCSRF set_resp set_trace
       opts heap ctxCSRF resp trace length app lookup list_lookup
       insert list_insert snd fst published mbind option_bind
       set_c_ID set_c_Token c_Header c_Form c_Cookie c_Token c_ID c_Secret
       c_ErrorFunc negb orb andb] in *.

Ltac mcases :=
  repeat (first [case_decide | case_match]; mcbn; simplify_eq;
          try done; try congruence).

(** The same for [Validate], whose branches depend on what the methods
    of the capability answer; the events are then read off the trace. *)
Ltac val_exec :=
  munfold; mcbn;
  repeat (first
    [ case_decide
    | match goal with
      | |- context [CSRF.ValidToken ?x ?t] =>
          destruct (CSRF.ValidToken x t) eqn:?
      | |- context [CSRF.Error ?x ?rw] =>
          destruct (CSRF.Error x rw) eqn:?
      end ]; mcbn; simplify_eq; try done);
  rewrite <- ?(assoc_L (++)); rewrite ?drop_app_length;
  cbn [app] in *.

(** Membership of an event in a trace that has been computed. *)
Ltac in_trace H :=
  repeat (apply elem_of_cons in H as [H|H]; [try discriminate H|]);
  try (apply elem_of_nil in H; destruct H).
Ltac not_in_trace :=
  let H := fresh "Hin" in intros; intros H; in_trace H.
Ltac in_trace_here :=
  repeat first [apply list_elem_of_here | apply list_elem_of_further].

(** ** Lemmas on the building blocks *)

Lemma fillDefaults_run (L : Lib) (w : World) :
  fillDefaults L w = (Normal tt, set_opts w (defaulted L (opts w))).
Proof.
  destruct w as [[s h f c k sh sc se ef] hp cx rs tr].
  unfold fillDefaults, bind, getOpts, putOpts, skip, ret, defaulted; cbn.
  destruct ef; repeat (case_decide; cbn in * ); subst;
    try reflexivity; congruence.
Qed.

(** Running [Generate] from a fresh world: the defaults are filled in
    first, and the rest runs on the filled-in options, whose secret and
    session key are the configured ones. *)
Ltac gen_start L o :=
  munfold; rewrite fillDefaults_run; mcbn;
  change (SessionKey (defaulted L o)) with (SessionKey o) in *;
  change (Secret (defaulted L o)) with (Secret o) in *.

Lemma defaulted_idempotent (L : Lib) (o : Options) :
  defaulted L (defaulted L o) = defaulted L o.
Proof.
  destruct o as [s h f c k sh sc se ef].
  unfold defaulted; cbn. repeat case_decide; cbn in *; congruence.
Qed.

(** The slash in front of [^] can never be matched: it must consume a
    character, after which the text is no longer at its beginning. *)
Lemma domainReg_matchK (bot : bool) (s : list ascii) k :
  matchK domainReg bot s k = false.
Proof.
  destruct s as [|a s]; [reflexivity|].
  cbn [domainReg domainBody matchK].
  destruct (bool_decide (a = "/"%char)); reflexivity.
Qed.

Lemma domainReg_searchFrom (bot : bool) (s : list ascii) :
  searchFrom domainReg bot s = false.
Proof.
  revert bot. induction s as [|a s IH]; intros bot.
  - cbn [searchFrom]. rewrite domainReg_matchK. reflexivity.
  - cbn [searchFrom]. rewrite domainReg_matchK, IH. reflexivity.
Qed.

Lemma domainReg_never_matches (b : string) :
  regexp_Match domainReg b = (false, None).
Proof. unfold regexp_Match. rewrite domainReg_searchFrom. reflexivity. Qed.

(** [Split] returns at least one piece, so indexing with 0 is safe. *)
Lemma Split_first (s : string) (sep : ascii) :
  ∃ d, Split s sep !! 0%nat = Some d.
Proof.
  destruct s as [|a s]; cbn [Split]; [eauto|].
  case_decide; [eauto|]. destruct (Split s sep); eauto.
Qed.

(** [FormatInt] writes the decimal numeral of an [int64]: it agrees with
    stdpp's [pretty] on [Z]. *)
Lemma digitChar_pretty (d : Z) :
  0 ≤ d < 10 → digitChar d = pretty_N_char (Z.to_N d).
Proof.
  intros Hd.
  assert (d = 0 ∨ d = 1 ∨ d = 2 ∨ d = 3 ∨ d = 4 ∨ d = 5 ∨ d = 6 ∨ d = 7 ∨
          d = 8 ∨ d = 9) as Hc by lia.
  repeat (destruct Hc as [->|Hc]; [reflexivity|]). subst d. reflexivity.
Qed.

Lemma formatBits_pretty (fuel : nat) (u : Z) (acc : string) :
  0 < u < 10 ^ Z.of_nat fuel →
  formatBits fuel u acc = pretty_N_go (Z.to_N u) acc.
Proof.
  revert u acc. induction fuel as [|fuel IH]; intros u acc Hu.
  - change (10 ^ Z.of_nat 0) with 1 in Hu. lia.
  - cbn [formatBits].
    rewrite pretty_N_go_step by lia.
    replace (Z.to_N u `div` 10)%N with (Z.to_N (u / 10))
      by (rewrite Z2N.inj_div by lia; reflexivity).
    replace (Z.to_N u `mod` 10)%N with (Z.to_N (u mod 10))
      by (rewrite Z2N.inj_mod by lia; reflexivity).
    destruct (Z.ltb_spec u 10) as [Hlt|Hge].
    + rewrite Z.div_small, Z.mod_small by lia.
      change (Z.to_N 0) with 0%N. rewrite pretty_N_go_0.
      rewrite digitChar_pretty by lia. reflexivity.
    + rewrite IH.
      * rewrite digitChar_pretty by (apply Z.mod_pos_bound; lia). reflexivity.
      * rewrite Nat2Z.inj_succ, Z.pow_succ_r in Hu by lia.
        split; [apply Z.div_str_pos; lia|].
        apply Z.div_lt_upper_bound; lia.
Qed.

Lemma uint64_small (i : Z) : 0 ≤ i < 2 ^ 64 → uint64 i = i.
Proof. intros Hi. unfold uint64. apply Z.mod_small. exact Hi. Qed.

Lemma uint64_negate (i : Z) :
  - 2 ^ 63 ≤ i < 0 → uint64 (- uint64 i) = - i.
Proof.
  intros Hi. unfold uint64.
  assert (i mod 2 ^ 64 = i + 2 ^ 64) as ->
    by (symmetry; apply (Z.mod_unique _ _ (-1)); lia).
  symmetry. apply (Z.mod_unique _ _ (-1)); lia.
Qed.

Lemma FormatInt_pretty (i : Z) :
  - 2 ^ 63 ≤ i < 2 ^ 63 → FormatInt i = pretty i.
Proof.
  intros Hi. unfold FormatInt.
  assert (10 ^ Z.of_nat 20 = 100000000000000000000) as H20 by reflexivity.
  destruct (Z.ltb_spec i 0) as [Hneg|Hpos].
  - rewrite uint64_negate by lia.
    rewrite formatBits_pretty by lia.
    destruct i as [|p|p]; try lia. reflexivity.
  - rewrite uint64_small by lia.
    destruct i as [|p|p]; try lia; [reflexivity|].
    rewrite formatBits_pretty by lia. reflexivity.
Qed.

(** ** The matcher decides [Matches] *)

Lemma Matches_shorter r bot s bot' s' :
  Matches r bot s bot' s' →
  (length s' ≤ length s)%nat ∧ (length s' = length s → s' = s ∧ bot' = bot).
Proof.
  induction 1 as [ | | | r1 r2 b s b1 s1 b2 s2 _ [IH1 IH1'] _ [IH2 IH2']
                   | | | | r b s b1 s1 b2 s2 _ [IH1 IH1'] _ [IH2 IH2'] | | ];
    cbn [length]; try (split; [lia|]; intros; first [lia | done]); try done.
  - split; [lia|]. intros Hlen.
    destruct IH2' as [-> ->]; [lia|]. apply IH1'. lia.
  - split; [lia|]. intros Hlen.
    destruct IH2' as [-> ->]; [lia|]. apply IH1'. lia.
Qed.

Section StarLoop.
Context (r : regex)
  (step : bool → list ascii → (bool → list ascii → bool) → bool)
  (step_spec : ∀ bot s k,
     step bot s k = true ↔ ∃ bot' s', Matches r bot s bot' s' ∧ k bot' s' = true).

Lemma starLoop_sound k n bot s :
  starLoop step k n bot s = true →
  ∃ bot' s', Matches (Star r) bot s bot' s' ∧ k bot' s' = true.
Proof.
  revert bot s. induction n as [|n IH]; intros bot s; cbn [starLoop].
  - intros Hk. exists bot, s. split; [constructor|exact Hk].
  - destruct (step bot s _) eqn:Hstep.
    + intros _. apply step_spec in Hstep as (b1 & s1 & Hm & Hk).
      destruct (length s1 <? length s)%nat; [|discriminate].
      apply IH in Hk as (b2 & s2 & Hm2 & Hk).
      exists b2, s2. split; [econstructor; eassumption|exact Hk].
    + intros Hk. exists bot, s. split; [constructor|exact Hk].
Qed.

Lemma starLoop_complete k bot s bot' s' :
  Matches (Star r) bot s bot' s' → k bot' s' = true →
  ∀ n, (length s ≤ n)%nat → starLoop step k n bot s = true.
Proof.
  intros Hm Hk. remember (Star r) as sr eqn:Hsr.
  induction Hm as [ | | | | | | r0 b s | r0 b s b1 s1 b2 s2 Hm1 _ Hm2 IH2 | | ];
    try discriminate Hsr; injection Hsr as ->; intros n Hn.
  - destruct n; cbn [starLoop]; [exact Hk|].
    destruct (step b s _); [reflexivity|exact Hk].
  - specialize (IH2 eq_refl Hk).
    destruct (Matches_shorter _ _ _ _ _ Hm1) as [Hle Heq].
    destruct (decide (length s1 = length s)) as [Hlen|Hlen].
    + destruct (Heq Hlen) as [-> ->]. apply IH2. exact Hn.
    + destruct n as [|n]; [lia|]. cbn [starLoop].
      replace (step b s _) with true; [reflexivity|].
      symmetry. apply step_spec. exists b1, s1. split; [exact Hm1|].
      replace (length s1 <? length s)%nat with true
        by (symmetry; apply Nat.ltb_lt; lia).
      apply IH2. lia.
Qed.
End StarLoop.

Lemma matchK_spec r bot s k :
  matchK r bot s k = true ↔
  ∃ bot' s', Matches r bot s bot' s' ∧ k bot' s' = true.
Proof.
  revert bot s k.
  induction r as [ | c | p | r1 IH1 r2 IH2 | r1 IH1 r2 IH2 | r1 IH1 | | ];
    intros bot s k; cbn [matchK].
  - split.
    + intros Hk. exists bot, s. split; [constructor|exact Hk].
    + intros (b' & s' & Hm & Hk). inversion Hm; subst. exact Hk.
  - destruct s as [|a s].
    + split; [discriminate|]. intros (b' & s' & Hm & _). inversion Hm.
    + case_bool_decide as Hac.
      * subst a. split.
        -- intros Hk. exists false, s. split; [constructor|exact Hk].
        -- intros (b' & s' & Hm & Hk). inversion Hm; subst. exact Hk.
      * split; [discriminate|]. intros (b' & s' & Hm & _).
        inversion Hm; subst. congruence.
  - destruct s as [|a s].
    + split; [discriminate|]. intros (b' & s' & Hm & _). inversion Hm.
    + destruct (p a) eqn:Hpa.
      * split.
        -- intros Hk. exists false, s. split; [by constructor|exact Hk].
        -- intros (b' & s' & Hm & Hk). inversion Hm; subst. exact Hk.
      * split; [discriminate|]. intros (b' & s' & Hm & _).
        inversion Hm; subst. congruence.
  - rewrite IH1. split.
    + intros (b1 & s1 & Hm1 & Hk). apply IH2 in Hk as (b2 & s2 & Hm2 & Hk).
      exists b2, s2. split; [econstructor; eassumption|exact Hk].
    + intros (b2 & s2 & Hm & Hk). inversion Hm; subst.
      eexists _, _. split; [eassumption|]. apply IH2. eauto.
  - destruct (matchK r1 bot s k) eqn:H1.
    + split; [|reflexivity]. intros _.
      apply IH1 in H1 as (b' & s' & Hm & Hk).
      exists b', s'. split; [by apply MAltL|exact Hk].
    + rewrite IH2. split.
      * intros (b' & s' & Hm & Hk). exists b', s'.
        split; [by apply MAltR|exact Hk].
      * intros (b' & s' & Hm & Hk). inversion Hm; subst.
        -- assert (matchK r1 bot s k = true) as Ht by (apply IH1; eauto).
           congruence.
        -- eauto.
  - split.
    + apply (starLoop_sound r1 (matchK r1) IH1).
    + intros (b' & s' & Hm & Hk).
      by apply (starLoop_complete r1 (matchK r1) IH1 k bot s b' s').
  - destruct bot.
    + split.
      * intros Hk. exists true, s. split; [constructor|exact Hk].
      * intros (b' & s' & Hm & Hk). inversion Hm; subst. exact Hk.
    + split; [discriminate|]. intros (b' & s' & Hm & _). inversion Hm.
  - destruct s as [|a s].
    + split.
      * intros Hk. exists bot, []. split; [constructor|exact Hk].
      * intros (b' & s' & Hm & Hk). inversion Hm; subst. exact Hk.
    + split; [discriminate|]. intros (b' & s' & Hm & _). inversion Hm.
Qed.

(** [regexp_Match] reports a match exactly when the pattern matches at
    some position of the text; only position 0 is the beginning. *)
Lemma searchFrom_spec r bot s :
  searchFrom r bot s = true ↔
  ∃ skipped rest bot' s',
    s = (skipped ++ rest)%list ∧
    Matches r (if skipped is [] then bot else false) rest bot' s'.
Proof.
  revert bot. induction s as [|a s IH]; intros bot; cbn [searchFrom].
  - destruct (matchK r bot [] _) eqn:Hm.
    + split; [|reflexivity]. intros _.
      apply matchK_spec in Hm as (b' & s' & Hm & _).
      exists [], [], b', s'. split; [reflexivity|exact Hm].
    + split; [discriminate|].
      intros (skipped & rest & b' & s' & Heq & Hmm).
      symmetry in Heq. apply app_eq_nil in Heq as [-> ->].
      assert (matchK r bot [] (λ _ _, true) = true) as Ht
        by (apply matchK_spec; eauto).
      congruence.
  - destruct (matchK r bot (a :: s) _) eqn:Hm.
    + split; [|reflexivity]. intros _.
      apply matchK_spec in Hm as (b' & s' & Hm & _).
      exists [], (a :: s), b', s'. split; [reflexivity|exact Hm].
    + rewrite IH. split.
      * intros (skipped & rest & b' & s' & -> & Hmm).
        exists (a :: skipped), rest, b', s'. split; [reflexivity|].
        destruct skipped; exact Hmm.
      * intros (skipped & rest & b' & s' & Heq & Hmm).
        destruct skipped as [|a0 skipped].
        -- cbn in Heq. subst rest.
           assert (matchK r bot (a :: s) (λ _ _, true) = true) as Ht
             by (apply matchK_spec; eauto).
           congruence.
        -- injection Heq as <- ->.
           exists skipped, rest, b', s'. split; [reflexivity|].
           destruct skipped; exact Hmm.
Qed.

(** Nothing at all matches [domainReg]. *)
Lemma domainReg_has_no_match bot s bot' s' : ¬ Matches domainReg bot s bot' s'.
Proof.
  intros Hm.
  assert (matchK domainReg bot s (λ _ _, true) = true) as Ht
    by (apply matchK_spec; eauto).
  rewrite domainReg_matchK in Ht. discriminate Ht.
Qed.

(** ** The package's tests, replayed on the sample instance *)

Example Test_GenerateToken :
  csrf_GetToken <$> published (afterGenerate sampleLib getPrivate loggedIn
                                 testOptions newRecorder)
  = Some issuedToken.
Proof. reflexivity. Qed.

Example Test_GenerateCookie :
  (λ c, (cName c, cValue c, cPath c)) <$>
    rwCookies (resp (afterGenerate sampleLib getPrivate loggedIn cookieOptions
                       newRecorder))
  = [("_csrf", issuedToken, "/")].
Proof. reflexivity. Qed.

Example Test_GenerateHeader :
  header_Get sampleLib
    (rwHeader (resp (afterGenerate sampleLib getPrivate loggedIn cookieOptions
                       newRecorder)))
    "X-CSRFToken"
  = issuedToken.
Proof. vm_compute. reflexivity. Qed.

Example Test_Validate_form :
  rwStatus (resp (run (guardedRoute sampleLib (postWithForm issuedToken) loggedIn)
                    (startWorld testOptions newRecorder)))
  = None.
Proof. vm_compute. reflexivity. Qed.

Example Test_Validate_header :
  rwStatus (resp (run (guardedRoute sampleLib (postWithHeader issuedToken) loggedIn)
                    (startWorld testOptions newRecorder)))
  = None.
Proof. vm_compute. reflexivity. Qed.

Example Test_Validate_invalid :
  let w := resp (run (guardedRoute sampleLib (postWithForm "invalid") loggedIn)
                   (startWorld testOptions newRecorder)) in
  rwStatus w = Some 400 ∧
  rwBody w = "Invalid csrf token." +:+ String "010"%char "".
Proof. vm_compute. split; reflexivity. Qed.

Example Test_ValidateCustomError :
  let w := resp (run (guardedRoute sampleLib (postWithForm "invalid") anonymous)
                   (startWorld customOptions newRecorder)) in
  rwStatus w = Some 422 ∧
  rwBody w = "custom error" +:+ String "010"%char "".
Proof. vm_compute. split; reflexivity. Qed.

Example Test_Validate_missing :
  let w := resp (run (guardedRoute sampleLib postPrivate anonymous)
                   (startWorld customOptions newRecorder)) in
  rwStatus w = Some 400 ∧
  rwBody w = "Bad Request" +:+ String "010"%char "".
Proof. vm_compute. split; reflexivity. Qed.

Example FormatInt_examples :
  FormatInt 0 = "0" ∧ FormatInt 1234567890 = "1234567890" ∧
  FormatInt (-42) = "-42" ∧
  FormatInt (2 ^ 63 - 1) = "9223372036854775807" ∧
  FormatInt (- 2 ^ 63) = "-9223372036854775808".
Proof. vm_compute. repeat split. Qed.

Example Split_examples :
  Split "example.com:8080" ":"%char = ["example.com"; "8080"] ∧
  Split "localhost" ":"%char = ["localhost"] ∧
  Split "" ":"%char = [""] ∧
  Split "[::1]:80" ":"%char = ["["; ""; "1]"; "80"].
Proof. vm_compute. repeat split. Qed.

Example domainBody_examples :
  regexp_Match domainBody "example.com" = (true, None) ∧
  regexp_Match domainBody "my-host.example.co" = (true, None) ∧
  regexp_Match domainBody "localhost" = (true, None) ∧
  regexp_Match domainBody "bad_host" = (false, None) ∧
  regexp_Match domainBody "trailing-.com" = (false, None) ∧
  regexp_Match domainBody "" = (false, None) ∧
  regexp_Match domainReg "example.com" = (false, None) ∧
  regexp_Match domainReg "/example.com/" = (false, None).
Proof. vm_compute. repeat split. Qed.

(** ** Properties of [Validate] *)

(** C1.  In [Validate], when the configured header carries a non-empty
    value, the handler reads the header, validates that value and nothing
    else, and never reads the form field; the form field is read only
    when the header value is empty; whatever the request, at most one
    candidate token is validated. *)
Theorem Validate_header_short_circuits (L : Lib) (T : Type) `{CSRF.t T}
    (x : T) (r : Request) (w : World) :
  let hv := header_Get L (Header r) (CSRF.GetHeaderName x) in
  let fv := firstValue (Form r) (CSRF.GetFormName x) in
  let evs := newEvents w (run (Validate L r x) w) in
  (hv ≠ "" →
     evs = ReqHeaderGet (CSRF.GetHeaderName x) :: CallValidToken hv ::
           (if CSRF.ValidToken x hv then [] else [CallError]) ∧
     ∀ k, ReqFormValue k ∉ evs) ∧
  ((∃ k, ReqFormValue k ∈ evs) → hv = "") ∧
  (∀ t, CallValidToken t ∈ evs →
     (hv ≠ "" ∧ t = hv) ∨ (hv = "" ∧ fv ≠ "" ∧ t = fv)) ∧
  (length (List.filter isValidation evs) ≤ 1)%nat.
Proof.
  intros hv fv evs. subst hv fv evs.
  val_exec.
  all: repeat split; try not_in_trace; try (intros; simplify_eq; done).
  all: try (intros [k Hin]; in_trace Hin; done).
  all: try (intros t Hin; in_trace Hin; simplify_eq; eauto; done).
  all: cbn; lia.
Qed.

(** The capability the tests' GET /private publishes. *)
Example published_issuedCapability :
  published (afterGenerate sampleLib getPrivate loggedIn testOptions newRecorder)
  = Some issuedCapability.
Proof. reflexivity. Qed.

(** A POST carrying both a header value and a form value: only the header
    is read and validated. *)
Lemma Validate_header_short_circuits_witness :
  newEvents (startWorld testOptions newRecorder)
    (run (Validate sampleLib (H := csrf_CSRF sampleLib)
            (postWithHeader issuedToken) issuedCapability)
       (startWorld testOptions newRecorder))
  = [ReqHeaderGet "X-CSRFToken"; CallValidToken issuedToken].
Proof.
  assert (header_Get sampleLib (Header (postWithHeader issuedToken))
            "X-CSRFToken" ≠ "") as Hne by (vm_compute; discriminate).
  exact (proj1 (proj1 (Validate_header_short_circuits sampleLib csrf
                         (H := csrf_CSRF sampleLib) issuedCapability
                         (postWithHeader issuedToken)
                         (startWorld testOptions newRecorder)) Hne)).
Defined.

(** What [http.Error] leaves in a writer nothing was written to. *)
Lemma http_Error_fresh (L : Lib) (rw : ResponseWriter) (msg : string) (code : Z) :
  rwStatus rw = None →
  rwStatus (http_Error L rw msg code) = Some code ∧
  rwBody (http_Error L rw msg code) = rwBody rw +:+ msg +:+ String "010"%char "" ∧
  rwCookies (http_Error L rw msg code) = rwCookies rw.
Proof.
  intros Hs. unfold http_Error, Fprintln, WriteHeader, setHeaderMap; cbn.
  rewrite Hs. auto.
Qed.

(** The capability [Generate] publishes: the struct exists whatever the
    request is, with the configured secret, the resolved names and the
    resolved error callback. *)
Lemma Generate_publishes (L : Lib) (r : Request) (sess : Store)
    (o : Options) (w0 : ResponseWriter) :
  ∃ x, published (afterGenerate L r sess o w0) = Some x ∧
       c_Secret x = Secret o ∧
       c_Header x = o_Header (defaulted L o) ∧
       c_Form x = o_Form (defaulted L o) ∧
       c_Cookie x = o_Cookie (defaulted L o) ∧
       c_ErrorFunc x = Some (default (defaultErrorFunc L) (ErrorFunc o)).
Proof.
  gen_start L o.
  change (Some (default (defaultErrorFunc L) (ErrorFunc o)))
    with (ErrorFunc (defaulted L o)).
  generalize (defaulted L o). intros o'.
  destruct (Split_first (Host r) ":"%char) as [d Hd].
  rewrite Hd, domainReg_never_matches.
  mcases; eexists; (split; [reflexivity|]); cbn; auto.
Qed.

(** C2.  [Validate] tells a missing token from an invalid one.  When
    neither the header nor the form field carries a non-empty value it
    writes 400 "Bad Request" with [http.Error] and does not call the
    capability's [Error], whatever callback that would run.  When the
    token it validates (the header value, or else the form value) is
    non-empty and [ValidToken] rejects it, it calls the capability's
    [Error] and writes nothing itself.  For the capability [Generate]
    publishes, [Error] runs the configured callback, or without one
    writes 400 "Invalid csrf token.". *)
Theorem Validate_missing_vs_invalid (L : Lib) (T : Type) `{CSRF.t T}
    (x : T) (r : Request) (w : World) :
  let hv := header_Get L (Header r) (CSRF.GetHeaderName x) in
  let fv := firstValue (Form r) (CSRF.GetFormName x) in
  let w' := run (Validate L r x) w in
  let evs := newEvents w w' in
  (hv = "" → fv = "" →
     evs = [ReqHeaderGet (CSRF.GetHeaderName x);
            ReqFormValue (CSRF.GetFormName x);
            HttpError "Bad Request" 400] ∧
     resp w' = http_Error L (resp w) "Bad Request" 400 ∧
     panics (Validate L r x) w = false ∧
     (rwStatus (resp w) = None →
        rwStatus (resp w') = Some 400 ∧
        rwBody (resp w') = rwBody (resp w) +:+ "Bad Request" +:+ String "010"%char "")) ∧
  (∀ t, (hv ≠ "" ∧ t = hv) ∨ (hv = "" ∧ fv ≠ "" ∧ t = fv) →
     CSRF.ValidToken x t = false →
     CallError ∈ evs ∧
     (∀ msg code, HttpError msg code ∉ evs) ∧
     match CSRF.Error x (resp w) with
     | Some rw => resp w' = rw ∧ panics (Validate L r x) w = false
     | None => panics (Validate L r x) w = true
     end) ∧
  (∀ r0 sess o w0, ∃ c,
     published (afterGenerate L r0 sess o w0) = Some c ∧
     ∀ rw, csrf_Error c rw =
           Some (match ErrorFunc o with
                 | Some f => f rw
                 | None => http_Error L rw "Invalid csrf token." 400
                 end)).
Proof.
  intros hv fv w' evs. subst hv fv w' evs.
  split; [|split].
  - val_exec.
    all: intros; simplify_eq; try done.
    split; [reflexivity|]. split; [reflexivity|]. split; [reflexivity|].
    intros Hs. destruct (http_Error_fresh L (resp w) "Bad Request" 400 Hs)
      as (Hst & Hb & _).
    split; assumption.
  - val_exec.
    all: intros; destruct_or?; destruct_and?; simplify_eq; try congruence.
    all: repeat split; try not_in_trace; try in_trace_here.
  - intros r0 sess o w0.
    destruct (Generate_publishes L r0 sess o w0) as (c & Hc & _ & _ & _ & _ & He).
    exists c. split; [exact Hc|]. intros rw.
    unfold csrf_Error. rewrite He. destruct (ErrorFunc o); reflexivity.
Qed.

(** The custom callback of the tests is not run for a POST without
    token, and is run for a POST with the form value "invalid". *)
Lemma Validate_missing_vs_invalid_witness :
  let x := customCapability in
  let start := startWorld customOptions newRecorder in
  let missing := run (Validate sampleLib (H := csrf_CSRF sampleLib) postPrivate x) start in
  let invalid := run (Validate sampleLib (H := csrf_CSRF sampleLib) (postWithForm "invalid") x) start in
  (rwStatus (resp missing) = Some 400 ∧
   rwBody (resp missing) = "Bad Request" +:+ String "010"%char "") ∧
  resp invalid = customError sampleLib newRecorder.
Proof.
  intros x start missing invalid.
  pose proof (Validate_missing_vs_invalid sampleLib csrf
                (H := csrf_CSRF sampleLib) x postPrivate start) as Hm.
  pose proof (Validate_missing_vs_invalid sampleLib csrf
                (H := csrf_CSRF sampleLib) x (postWithForm "invalid") start) as Hi.
  split.
  - apply (proj1 Hm); reflexivity.
  - refine (proj1 (proj2 (proj2 (proj1 (proj2 Hi) "invalid" _ _)))).
    + right. repeat split. vm_compute. discriminate.
    + reflexivity.
Defined.

(** ** Properties of the codec and of [Generate] *)

(** C3.  Round trip: for every secret [s] and identity [id], a capability
    whose [Secret] is [s] and whose [ID] is [id] accepts the token
    derived for [(s, id, "POST")]. *)
Theorem ValidToken_round_trip (L : Lib) (s id : string) (x : csrf) :
  c_Secret x = s →
  c_ID x = id →
  csrf_ValidToken L x (GenerateToken L s id "POST") = true.
Proof.
  intros <- <-. unfold csrf_ValidToken, ValidToken.
  apply bool_decide_eq_true. reflexivity.
Qed.

Lemma ValidToken_round_trip_witness :
  csrf_ValidToken sampleLib issuedCapability
    (GenerateToken sampleLib "token123" "123456" "POST") = true.
Proof.
  apply (ValidToken_round_trip sampleLib "token123" "123456" issuedCapability);
    reflexivity.
Defined.

(** C4.  A request that is not a GET, or that carries a non-empty Origin
    header, gets no token: the response writer is left as it was (no
    cookie, no header), the codec is not called, and the published
    capability's [GetToken] is the empty string. *)
Theorem Generate_gate_no_issue (L : Lib) (r : Request) (sess : Store)
    (o : Options) (w0 : ResponseWriter) :
  Method r ≠ "GET" ∨ header_Get L (Header r) "Origin" ≠ "" →
  let w' := afterGenerate L r sess o w0 in
  resp w' = w0 ∧
  (∀ s i a, CallGenerateToken s i a ∉ trace w') ∧
  (∀ c, HttpSetCookie c ∉ trace w') ∧
  (∀ k v, RespHeaderAdd k v ∉ trace w') ∧
  (∃ x, published w' = Some x ∧ csrf_GetToken x = "").
Proof.
  intros Hgate w'. subst w'.
  gen_start L o. generalize (defaulted L o). intros o'.
  destruct Hgate as [Hm|Ho]; mcases.
  all: repeat split; try not_in_trace; eauto.
Qed.

Lemma Generate_gate_no_issue_witness :
  let w' := afterGenerate sampleLib postPrivate loggedIn cookieOptions newRecorder in
  resp w' = newRecorder ∧
  (∀ s i a, CallGenerateToken s i a ∉ trace w') ∧
  (∀ c, HttpSetCookie c ∉ trace w') ∧
  (∀ k v, RespHeaderAdd k v ∉ trace w') ∧
  (∃ x, published w' = Some x ∧ csrf_GetToken x = "").
Proof.
  apply (Generate_gate_no_issue sampleLib postPrivate loggedIn cookieOptions
           newRecorder).
  left. vm_compute. discriminate.
Defined.

(** C5.  Cookie reuse: on a GET without Origin header and with a resolved
    identity, a non-empty value of the configured cookie becomes the
    capability's token, the codec is not called and no cookie is set (the
    only thing written is that value under the configured header, when
    [SetHeader] is on); the codec is called exactly when the cookie is
    absent or empty. *)
Theorem Generate_cookie_reuse (L : Lib) (r : Request) (sess : Store)
    (o : Options) (w0 : ResponseWriter) :
  Method r = "GET" →
  header_Get L (Header r) "Origin" = "" →
  (∃ s, sess !! SessionKey o = Some (DString s)) ∨
  (∃ i, sess !! SessionKey o = Some (DInt64 i)) →
  let w' := afterGenerate L r sess o w0 in
  let ex := findCookie (Cookies r) (o_Cookie (defaulted L o)) in
  (∀ v, ex = Some v → v ≠ "" →
     (∃ x, published w' = Some x ∧ csrf_GetToken x = v) ∧
     (∀ s i a, CallGenerateToken s i a ∉ trace w') ∧
     (∀ c, HttpSetCookie c ∉ trace w') ∧
     rwCookies (resp w') = rwCookies w0 ∧
     resp w' = (if SetHeader o
                then setHeaderMap w0
                       (header_Add L (rwHeader w0) (o_Header (defaulted L o)) v)
                else w0)) ∧
  ((∃ s i a, CallGenerateToken s i a ∈ trace w') ↔ (ex = None ∨ ex = Some "")).
Proof.
  intros Hm Ho Hid w' ex. subst w' ex.
  gen_start L o.
  assert (SetHeader (defaulted L o) = SetHeader o) as Hsh by reflexivity.
  generalize dependent (defaulted L o). intros o' Hsh.
  destruct (Split_first (Host r) ":"%char) as [d Hd].
  rewrite Hd, domainReg_never_matches.
  destruct Hid as [[s Hs]|[i Hi]]; [rewrite Hs|rewrite Hi]; mcbn; mcases.
  all: split;
    [ intros v Hv Hne; simplify_eq; rewrite <- Hsh;
      repeat match goal with H : SetHeader _ = _ |- _ => rewrite H end;
      repeat split; try not_in_trace; eauto
    | split;
      [ intros (s1 & i1 & a1 & Hin); in_trace Hin; eauto
      | intros [?|?]; simplify_eq; do 3 eexists; in_trace_here ] ].
Qed.

Lemma Generate_cookie_reuse_witness :
  let w' := afterGenerate sampleLib getPrivateAgain loggedIn cookieOptions
              newRecorder in
  (∃ x, published w' = Some x ∧ csrf_GetToken x = "earlier-token") ∧
  (∀ s i a, CallGenerateToken s i a ∉ trace w') ∧
  (∀ c, HttpSetCookie c ∉ trace w') ∧
  rwCookies (resp w') = rwCookies newRecorder ∧
  resp w' = setHeaderMap newRecorder
              (header_Add sampleLib (rwHeader newRecorder) "X-CSRFToken"
                 "earlier-token").
Proof.
  refine (proj1 (Generate_cookie_reuse sampleLib getPrivateAgain loggedIn
                   cookieOptions newRecorder _ _ _) "earlier-token" _ _).
  - reflexivity.
  - reflexivity.
  - left. exists "123456". reflexivity.
  - reflexivity.
  - discriminate.
Defined.

(** C6.  What the code does where the claim expects the cookie's Domain
    to be the bare hostname: whenever a fresh token is minted with
    [SetCookie] on, exactly one cookie is set, and its Domain is empty,
    whatever the request's host is; the handler does not panic.  The
    pattern [domainReg] matches no text at all, so a hostname that is a
    valid domain name is dropped like a malformed one. *)
Theorem minted_cookie_has_no_Domain (L : Lib) (r : Request) (sess : Store)
    (o : Options) (w0 : ResponseWriter) :
  Method r = "GET" →
  header_Get L (Header r) "Origin" = "" →
  (∃ s, sess !! SessionKey o = Some (DString s)) ∨
  (∃ i, sess !! SessionKey o = Some (DInt64 i)) →
  findCookie (Cookies r) (o_Cookie (defaulted L o)) = None ∨
  findCookie (Cookies r) (o_Cookie (defaulted L o)) = Some "" →
  SetCookie o = true →
  let w' := afterGenerate L r sess o w0 in
  (∃ c x, rwCookies (resp w') = (rwCookies w0 ++ [c])%list ∧
          published w' = Some x ∧
          cName c = o_Cookie (defaulted L o) ∧
          cValue c = csrf_GetToken x ∧
          cDomain c = "") ∧
  panics (Generate L r sess) (startWorld o w0) = false ∧
  ∀ host, regexp_Match domainReg host = (false, None).
Proof.
  intros Hm Ho Hid Hex Hset w'. subst w'.
  split; [|split]; [| |apply domainReg_never_matches].
  - gen_start L o. change (SetCookie (defaulted L o) = true) in Hset.
    generalize dependent (defaulted L o). intros o' Hex Hset.
    destruct (Split_first (Host r) ":"%char) as [d Hd].
    rewrite Hd, domainReg_never_matches.
    destruct Hid as [[s Hs]|[i Hi]]; [rewrite Hs|rewrite Hi]; mcbn;
      destruct Hex as [Hex|Hex]; mcases.
    all: do 2 eexists; repeat split.
  - gen_start L o. change (SetCookie (defaulted L o) = true) in Hset.
    generalize dependent (defaulted L o). intros o' Hex Hset.
    destruct (Split_first (Host r) ":"%char) as [d Hd].
    rewrite Hd, domainReg_never_matches.
    destruct Hid as [[s Hs]|[i Hi]]; [rewrite Hs|rewrite Hi]; mcbn;
      destruct Hex as [Hex|Hex]; mcases.
Qed.

(** The failing input: the host is "example.com:8080", its bare hostname
    "example.com" matches what stands between the slashes of the
    pattern, and the cookie is set without Domain. *)
Lemma minted_cookie_has_no_Domain_witness :
  Split (Host getPrivate) ":"%char !! 0%nat = Some "example.com" ∧
  regexp_Match domainBody "example.com" = (true, None) ∧
  ∃ c x,
    rwCookies (resp (afterGenerate sampleLib getPrivate loggedIn cookieOptions
                       newRecorder)) = [c] ∧
    published (afterGenerate sampleLib getPrivate loggedIn cookieOptions
                 newRecorder) = Some x ∧
    cName c = "_csrf" ∧
    cValue c = csrf_GetToken x ∧
    cDomain c = "".
Proof.
  split; [reflexivity|]. split; [vm_compute; reflexivity|].
  refine (proj1 (minted_cookie_has_no_Domain sampleLib getPrivate loggedIn
                   cookieOptions newRecorder _ _ _ _ _)).
  - reflexivity.
  - reflexivity.
  - left. exists "123456". reflexivity.
  - left. reflexivity.
  - reflexivity.
Defined.

(** C7.  Identity resolution.  When the session has no value under the
    session key, or a value that is neither a string nor an int64, the
    handler stops after the look-up: nothing is written, the codec is
    not called, nothing panics, and the capability holds the configured
    names, secret and callback with empty ID and token.  A string is
    used as it is; an int64 is used as its decimal numeral. *)
Theorem Generate_identity_resolution (L : Lib) (r : Request) (sess : Store)
    (o : Options) (w0 : ResponseWriter) :
  let w' := afterGenerate L r sess o w0 in
  let uid := sess !! SessionKey o in
  let o' := defaulted L o in
  ((uid = None ∨ ∃ t, uid = Some (DOther t)) →
     trace w' = [CtxMapTo 0; SessionGet (SessionKey o)] ∧
     resp w' = w0 ∧
     panics (Generate L r sess) (startWorld o w0) = false ∧
     published w' =
       Some {| c_Header := o_Header o'; c_Form := o_Form o';
               c_Cookie := o_Cookie o'; c_Token := ""; c_ID := "";
               c_Secret := Secret o; c_ErrorFunc := ErrorFunc o' |}) ∧
  (∀ s, uid = Some (DString s) →
     ∃ x, published w' = Some x ∧ c_ID x = s) ∧
  (∀ i, - 2 ^ 63 ≤ i < 2 ^ 63 → uid = Some (DInt64 i) →
     ∃ x, published w' = Some x ∧ c_ID x = FormatInt i ∧ c_ID x = pretty i).
Proof.
  intros w' uid o'. subst w' uid o'.
  gen_start L o.
  generalize (defaulted L o). intros o'.
  destruct (Split_first (Host r) ":"%char) as [d Hd].
  rewrite Hd, domainReg_never_matches.
  split; [|split].
  - intros [Hu|[t Hu]]; rewrite Hu; mcbn; auto.
  - intros s Hu; rewrite Hu; mcbn; mcases; eauto.
  - intros i Hi Hu; rewrite Hu; mcbn.
    rewrite <- (FormatInt_pretty i Hi). mcases; eauto.
Qed.

Lemma Generate_identity_resolution_witness :
  (∃ x, published (afterGenerate sampleLib getPrivate loggedInInt testOptions
                     newRecorder) = Some x ∧
        c_ID x = FormatInt (-42) ∧ c_ID x = pretty (-42)) ∧
  resp (afterGenerate sampleLib getPrivate loggedInOther cookieOptions
          newRecorder) = newRecorder.
Proof.
  split.
  - refine (proj2 (proj2 (Generate_identity_resolution sampleLib getPrivate
                            loggedInInt testOptions newRecorder)) (-42) _ _).
    + lia.
    + reflexivity.
  - refine (proj1 (proj2 (proj1 (Generate_identity_resolution sampleLib
                                   getPrivate loggedInOther cookieOptions
                                   newRecorder) _))).
    right. exists "int". reflexivity.
Defined.

(** C8, as the claim states it, fails: the tests' GET /private derives
    its token with the third input "POST", not with the request's
    method "GET". *)
Lemma derivesWithRequestMethod_counterexample :
  ¬ derivesWithRequestMethod sampleLib getPrivate loggedIn testOptions
      newRecorder.
Proof.
  intros Hall.
  specialize (Hall "token123" "123456" "POST").
  assert ("POST" = Method getPrivate) as Heq; [|discriminate Heq].
  apply Hall. vm_compute. in_trace_here.
Qed.

(** C8, amended.  The codec's third input is the constant "POST", on
    both sides.  Whatever the request's method, the published capability
    verifies a candidate against (configured secret, its ID, "POST");
    and every derivation [Generate] performs happens on a GET, passes
    exactly that triple, and yields the capability's token. *)
Theorem codec_third_input_is_POST (L : Lib) (r : Request) (sess : Store)
    (o : Options) (w0 : ResponseWriter) :
  let w' := afterGenerate L r sess o w0 in
  ∃ x, published w' = Some x ∧
       (∀ t, csrf_ValidToken L x t = ValidToken L t (Secret o) (c_ID x) "POST") ∧
       (∀ secret id action,
          CallGenerateToken secret id action ∈ trace w' →
          secret = Secret o ∧ id = c_ID x ∧ action = "POST" ∧
          Method r = "GET" ∧
          csrf_GetToken x = GenerateToken L secret id action).
Proof.
  intros w'. subst w'.
  gen_start L o.
  generalize (defaulted L o). intros o'.
  destruct (Split_first (Host r) ":"%char) as [d Hd].
  rewrite Hd, domainReg_never_matches.
  mcases.
  all: eexists; split; [reflexivity|]; split; [reflexivity|].
  all: intros secret id action Hin; in_trace Hin; simplify_eq; auto.
Qed.

Lemma codec_third_input_is_POST_witness :
  ∃ x, published (afterGenerate sampleLib getPrivate loggedIn testOptions
                    newRecorder) = Some x ∧
       CallGenerateToken "token123" "123456" "POST"
         ∈ trace (afterGenerate sampleLib getPrivate loggedIn testOptions
                    newRecorder) ∧
       Method getPrivate = "GET" ∧
       csrf_GetToken x = GenerateToken sampleLib "token123" "123456" "POST" ∧
       ∀ t, csrf_ValidToken sampleLib x t
            = ValidToken sampleLib t "token123" "123456" "POST".
Proof.
  destruct (codec_third_input_is_POST sampleLib getPrivate loggedIn testOptions
              newRecorder) as (x & Hx & Hv & Hd).
  assert (CallGenerateToken "token123" "123456" "POST"
            ∈ trace (afterGenerate sampleLib getPrivate loggedIn testOptions
                       newRecorder)) as Hin
    by (vm_compute; in_trace_here).
  destruct (Hd _ _ _ Hin) as (_ & Hid & _ & Hm & Ht).
  exists x. repeat split; try assumption.
  intros t. rewrite Hv, <- Hid. reflexivity.
Defined.

(** C9, as the claim states it, fails: with the tests' options the first
    request leaves the shared options struct changed. *)
Lemma options_unchanged_counterexample :
  opts (afterGenerate sampleLib getPrivate loggedIn testOptions newRecorder)
  ≠ testOptions.
Proof.
  intros Heq. apply (f_equal o_Header) in Heq.
  vm_compute in Heq. discriminate Heq.
Qed.

(** C9, amended.  [Generate] writes to the shared options struct only to
    fill in defaults: afterwards the struct is the one it found with
    "X-CSRFToken", "_csrf", "_csrf" and the default callback in place of
    an empty header, form, cookie name and a nil callback.  The secret,
    the session key and the three switches are never written; a struct
    with all four fields set is left as it is, and so is the struct
    after the first request by every later request. *)
Theorem Generate_options_effect (L : Lib) (r : Request) (sess : Store)
    (o : Options) (w0 : ResponseWriter) :
  let o' := opts (afterGenerate L r sess o w0) in
  o' = defaulted L o ∧
  (Secret o' = Secret o ∧ SessionKey o' = SessionKey o ∧
   SetHeader o' = SetHeader o ∧ SetCookie o' = SetCookie o ∧
   Secure o' = Secure o) ∧
  (o_Header o ≠ "" → o_Form o ≠ "" → o_Cookie o ≠ "" → ErrorFunc o ≠ None →
   o' = o) ∧
  (∀ r2 sess2 w2, opts (afterGenerate L r2 sess2 o' w2) = o').
Proof.
  assert (∀ r1 sess1 o1 w1,
            opts (afterGenerate L r1 sess1 o1 w1) = defaulted L o1) as Hopts.
  { intros r1 sess1 o1 w1. gen_start L o1.
    generalize (defaulted L o1). intros o'.
    destruct (Split_first (Host r1) ":"%char) as [d Hd].
    rewrite Hd, domainReg_never_matches.
    mcases. }
  intros o'. subst o'. rewrite Hopts.
  split; [reflexivity|]. split; [repeat split|]. split.
  - intros Hh Hf Hc He. destruct o as [s h f c k sh sc se ef].
    unfold defaulted; cbn in *. rewrite !decide_False by assumption.
    destruct ef; [reflexivity|congruence].
  - intros r2 sess2 w2. rewrite Hopts. apply defaulted_idempotent.
Qed.

Lemma Generate_options_effect_witness :
  let o' := opts (afterGenerate sampleLib getPrivate loggedIn testOptions
                    newRecorder) in
  o_Header o' = "X-CSRFToken" ∧
  opts (afterGenerate sampleLib postPrivate anonymous o' newRecorder) = o'.
Proof.
  pose proof (Generate_options_effect sampleLib getPrivate loggedIn testOptions
                newRecorder) as (Heq & _ & _ & Hstable).
  split.
  - exact (f_equal o_Header Heq).
  - apply Hstable.
Defined.

(** C10.  Without resolved identity the capability is still published,
    with the configured secret and the empty ID: it accepts exactly the
    token derived for the empty identity, so it does not reject every
    candidate. *)
Theorem no_identity_capability (L : Lib) (r : Request) (sess : Store)
    (o : Options) (w0 : ResponseWriter) :
  sess !! SessionKey o = None ∨ (∃ t, sess !! SessionKey o = Some (DOther t)) →
  ∃ x, published (afterGenerate L r sess o w0) = Some x ∧
       c_ID x = "" ∧
       c_Secret x = Secret o ∧
       (∀ t, csrf_ValidToken L x t = true ↔
             t = GenerateToken L (Secret o) "" "POST") ∧
       csrf_ValidToken L x (GenerateToken L (Secret o) "" "POST") = true.
Proof.
  intros Hu.
  gen_start L o.
  generalize (defaulted L o). intros o'.
  destruct Hu as [Hu|[t Hu]]; rewrite Hu; mcbn.
  all: eexists; split; [reflexivity|]; cbn [c_ID c_Secret].
  all: unfold csrf_ValidToken, ValidToken; cbn [c_ID c_Secret].
  all: repeat split; try (intros ?; apply bool_decide_eq_true; done).
  all: try (intros ?%bool_decide_eq_true; done).
  all: apply bool_decide_eq_true; reflexivity.
Qed.

Lemma no_identity_capability_witness :
  ∃ x, published (afterGenerate sampleLib postPrivate anonymous testOptions
                    newRecorder) = Some x ∧
       c_ID x = "" ∧
       c_Secret x = "token123" ∧
       (∀ t, csrf_ValidToken sampleLib x t = true ↔
             t = GenerateToken sampleLib "token123" "" "POST") ∧
       csrf_ValidToken sampleLib x (GenerateToken sampleLib "token123" "" "POST")
       = true.
Proof.
  apply (no_identity_capability sampleLib postPrivate anonymous testOptions
           newRecorder).
  left. reflexivity.
Defined.

(** ** Further properties of [Generate] *)

(** Common opening for a property of [Generate] that holds for every
    request: run to the end on the filled-in options. *)
Ltac gen_all L o r :=
  gen_start L o;
  let o' := fresh "o'" in
  generalize (defaulted L o); intros o';
  let d := fresh "d" in let Hd := fresh "Hd" in
  destruct (Split_first (Host r) ":"%char) as [d Hd];
  rewrite Hd, domainReg_never_matches.

(** X1.  [Generate] never panics: the struct it maps is always allocated
    before it is read or written, and indexing the split host with 0 is
    always in range. *)
Theorem Generate_never_panics (L : Lib) (r : Request) (sess : Store)
    (o : Options) (w0 : ResponseWriter) :
  panics (Generate L r sess) (startWorld o w0) = false.
Proof. gen_all L o r. mcases. Qed.

(** X2.  The capability [Generate] publishes always has usable names and
    a callback: the configured header, form and cookie names, or
    "X-CSRFToken", "_csrf", "_csrf" where the configuration leaves them
    empty, so none of the three is ever empty; and [Error] on it runs a
    function, the configured one or the default. *)
Theorem Generate_capability_names (L : Lib) (r : Request) (sess : Store)
    (o : Options) (w0 : ResponseWriter) :
  ∃ x, published (afterGenerate L r sess o w0) = Some x ∧
       csrf_GetHeaderName x = (if decide (o_Header o = "") then "X-CSRFToken" else o_Header o) ∧
       csrf_GetFormName x = (if decide (o_Form o = "") then "_csrf" else o_Form o) ∧
       csrf_GetCookieName x = (if decide (o_Cookie o = "") then "_csrf" else o_Cookie o) ∧
       csrf_GetHeaderName x ≠ "" ∧ csrf_GetFormName x ≠ "" ∧
       csrf_GetCookieName x ≠ "" ∧
       ∀ rw, is_Some (csrf_Error x rw).
Proof.
  destruct (Generate_publishes L r sess o w0) as (x & Hx & _ & Hh & Hf & Hc & He).
  exists x. split; [exact Hx|].
  unfold csrf_GetHeaderName, csrf_GetFormName, csrf_GetCookieName, csrf_Error.
  rewrite Hh, Hf, Hc, He. cbn [defaulted o_Header o_Form o_Cookie].
  repeat split; try (case_decide; congruence); eauto.
Qed.





(** X5.  [Generate] asks the session store exactly once per request, for
    the configured key, right after mapping the capability and before it
    reads anything from the request; without resolved identity it reads
    nothing from the request at all. *)
Theorem Generate_session_lookup (L : Lib) (r : Request) (sess : Store)
    (o : Options) (w0 : ResponseWriter) :
  let w' := afterGenerate L r sess o w0 in
  (∃ rest, trace w' = CtxMapTo 0 :: SessionGet (SessionKey o) :: rest ∧
           List.filter isSessionGet rest = []) ∧
  (resolved (sess !! SessionKey o) = None →
   (∀ k, ReqHeaderGet k ∉ trace w') ∧ (∀ n, ReqCookie n ∉ trace w')).
Proof.
  intros w'. subst w'.
  gen_all L o r. mcases.
  all: split; [eexists; split; [reflexivity|reflexivity]|].
  all: intros Hr; try discriminate Hr.
  all: split; not_in_trace.
Qed.

Lemma Generate_session_lookup_witness :
  (∀ k, ReqHeaderGet k ∉ trace (afterGenerate sampleLib getPrivate anonymous
                                  cookieOptions newRecorder)) ∧
  (∀ n, ReqCookie n ∉ trace (afterGenerate sampleLib getPrivate anonymous
                               cookieOptions newRecorder)).
Proof.
  apply (proj2 (Generate_session_lookup sampleLib getPrivate anonymous
                  cookieOptions newRecorder)).
  reflexivity.
Defined.

(** The options struct after a request. *)
Lemma Generate_opts (L : Lib) (r : Request) (sess : Store) (o : Options)
    (w0 : ResponseWriter) :
  opts (afterGenerate L r sess o w0) = defaulted L o.
Proof. gen_all L o r. mcases. Qed.

(** The identity in the published capability. *)
Lemma Generate_published_ID (L : Lib) (r : Request) (sess : Store)
    (o : Options) (w0 : ResponseWriter) :
  ∃ x, published (afterGenerate L r sess o w0) = Some x ∧
       c_ID x = default "" (resolved (sess !! SessionKey o)).
Proof. gen_all L o r. mcases; eexists; split; reflexivity. Qed.

(** [Generate] depends on the session only through the identity it
    resolves. *)
Lemma Generate_resolved_only (L : Lib) (r : Request) (sess1 sess2 : Store)
    (o : Options) (w0 : ResponseWriter) :
  resolved (sess1 !! SessionKey o) = resolved (sess2 !! SessionKey o) →
  afterGenerate L r sess1 o w0 = afterGenerate L r sess2 o w0.
Proof.
  intros Hres. gen_start L o.
  destruct (sess1 !! SessionKey o) as [[s1|i1|t1]|],
           (sess2 !! SessionKey o) as [[s2|i2|t2]|];
    cbn [resolved] in Hres; simplify_eq; try rewrite Hres; reflexivity.
Qed.

(** X6.  Identities of type [int64]: two different numbers never give the
    same capability ID, while a number and the string of its decimal
    numeral give the same ID, and [Generate] treats the two requests
    alike in every respect. *)
Theorem Generate_int64_identities (L : Lib) (r : Request)
    (sess1 sess2 : Store) (o : Options) (w0 : ResponseWriter) (i j : Z) :
  - 2 ^ 63 ≤ i < 2 ^ 63 →
  - 2 ^ 63 ≤ j < 2 ^ 63 →
  sess1 !! SessionKey o = Some (DInt64 i) →
  sess2 !! SessionKey o = Some (DInt64 j) →
  i ≠ j →
  (∃ x1 x2, published (afterGenerate L r sess1 o w0) = Some x1 ∧
            published (afterGenerate L r sess2 o w0) = Some x2 ∧
            c_ID x1 ≠ c_ID x2) ∧
  (∀ sess3, sess3 !! SessionKey o = Some (DString (pretty i)) →
            afterGenerate L r sess3 o w0 = afterGenerate L r sess1 o w0).
Proof.
  intros Hi Hj H1 H2 Hne. split.
  - destruct (Generate_published_ID L r sess1 o w0) as (x1 & Hx1 & Hid1).
    destruct (Generate_published_ID L r sess2 o w0) as (x2 & Hx2 & Hid2).
    exists x1, x2. split; [exact Hx1|]. split; [exact Hx2|].
    rewrite Hid1, Hid2, H1, H2. cbn [resolved default].
    rewrite !FormatInt_pretty by assumption.
    intros Heq. apply Hne. by apply (inj pretty).
  - intros sess3 H3. apply Generate_resolved_only.
    rewrite H1, H3. cbn [resolved]. by rewrite FormatInt_pretty.
Qed.

Lemma Generate_int64_identities_witness :
  (∃ x1 x2,
     published (afterGenerate sampleLib getPrivate loggedInInt testOptions
                  newRecorder) = Some x1 ∧
     published (afterGenerate sampleLib getPrivate
                  ({[ "userID" := DInt64 42 ]} : Store) testOptions
                  newRecorder) = Some x2 ∧
     c_ID x1 ≠ c_ID x2) ∧
  (∀ sess3, sess3 !! "userID" = Some (DString (pretty (-42))) →
            afterGenerate sampleLib getPrivate sess3 testOptions newRecorder
            = afterGenerate sampleLib getPrivate loggedInInt testOptions
                newRecorder).
Proof.
  apply (Generate_int64_identities sampleLib getPrivate loggedInInt
           ({[ "userID" := DInt64 42 ]} : Store) testOptions newRecorder
           (-42) 42); [lia | lia | reflexivity | reflexivity | lia].
Defined.

(** The cookie [Generate] sets carries the filled-in cookie name and the
    published token. *)
Lemma Generate_cookie_event (L : Lib) (r : Request) (sess : Store)
    (o : Options) (w0 : ResponseWriter) (c : Cookie) :
  HttpSetCookie c ∈ trace (afterGenerate L r sess o w0) →
  ∃ x, published (afterGenerate L r sess o w0) = Some x ∧
       cName c = o_Cookie (defaulted L o) ∧ cValue c = c_Token x.
Proof.
  gen_all L o r. mcases.
  all: intros Hin; in_trace Hin; simplify_eq.
  all: eexists; repeat split.
Qed.

(** A GET without Origin by a resolved identity that presents a
    non-empty value of the cookie: that value is the token, the codec
    is not called, no cookie is set. *)
Lemma Generate_reuse_run (L : Lib) (r : Request) (sess : Store)
    (o : Options) (w0 : ResponseWriter) (v : string) :
  Method r = "GET" →
  header_Get L (Header r) "Origin" = "" →
  resolved (sess !! SessionKey o) ≠ None →
  findCookie (Cookies r) (o_Cookie (defaulted L o)) = Some v →
  v ≠ "" →
  (∃ x, published (afterGenerate L r sess o w0) = Some x ∧ c_Token x = v) ∧
  (∀ s i a, CallGenerateToken s i a ∉ trace (afterGenerate L r sess o w0)) ∧
  rwCookies (resp (afterGenerate L r sess o w0)) = rwCookies w0.
Proof.
  intros Hm Ho Hid Hex Hv.
  gen_start L o.
  generalize dependent (defaulted L o). intros o' Hex.
  destruct (Split_first (Host r) ":"%char) as [d Hd].
  rewrite Hd, domainReg_never_matches.
  destruct (sess !! SessionKey o) as [[s|i|t]|]; cbn [resolved] in Hid;
    try done; mcases.
  all: repeat split; try not_in_trace; eauto.
Qed.

(** X7.  A cookie [Generate] has set is taken back by a later request:
    when a later GET without Origin header by a resolved identity
    presents that cookie with its non-empty value, the token published
    for it is the token of the request that set the cookie; it is not
    derived again and no second cookie is set. *)
Theorem Generate_takes_back_its_cookie (L : Lib) (r1 r2 : Request)
    (sess1 sess2 : Store) (o : Options) (w1 w2 : ResponseWriter) (c : Cookie) :
  HttpSetCookie c ∈ trace (afterGenerate L r1 sess1 o w1) →
  cValue c ≠ "" →
  Method r2 = "GET" →
  header_Get L (Header r2) "Origin" = "" →
  resolved (sess2 !! SessionKey o) ≠ None →
  findCookie (Cookies r2) (cName c) = Some (cValue c) →
  let first := afterGenerate L r1 sess1 o w1 in
  let second := afterGenerate L r2 sess2 (opts first) w2 in
  (∃ x1 x2, published first = Some x1 ∧ published second = Some x2 ∧
            csrf_GetToken x2 = csrf_GetToken x1) ∧
  (∀ s i a, CallGenerateToken s i a ∉ trace second) ∧
  rwCookies (resp second) = rwCookies w2.
Proof.
  intros Hin Hv Hm Ho Hid Hex first second. subst first second.
  destruct (Generate_cookie_event L r1 sess1 o w1 c Hin) as (x1 & Hx1 & Hn & Hval).
  rewrite Generate_opts.
  rewrite Hn in Hex.
  rewrite <- (defaulted_idempotent L o) in Hex.
  destruct (Generate_reuse_run L r2 sess2 (defaulted L o) w2 (cValue c))
    as ((x2 & Hx2 & Ht2) & Hno & Hck); try assumption.
  split; [|split; assumption].
  exists x1, x2. split; [exact Hx1|]. split; [exact Hx2|].
  unfold csrf_GetToken. congruence.
Qed.

Lemma Generate_takes_back_its_cookie_witness :
  let first := afterGenerate sampleLib getPrivate loggedIn cookieOptions
                 newRecorder in
  let second := afterGenerate sampleLib getPrivateWithIssuedCookie loggedIn
                  (opts first) newRecorder in
  (∃ x1 x2, published first = Some x1 ∧ published second = Some x2 ∧
            csrf_GetToken x2 = csrf_GetToken x1) ∧
  (∀ s i a, CallGenerateToken s i a ∉ trace second) ∧
  rwCookies (resp second) = rwCookies newRecorder.
Proof.
  apply (Generate_takes_back_its_cookie sampleLib getPrivate
           getPrivateWithIssuedCookie loggedIn loggedIn cookieOptions
           newRecorder newRecorder issuedCookie).
  - vm_compute. in_trace_here.
  - discriminate.
  - reflexivity.
  - reflexivity.
  - discriminate.
  - reflexivity.
Defined.

(** ** Further properties of [Validate] *)

(** X8.  A request passes [Validate] untouched: when the token it
    evaluates (the header value, or the form value when the header value
    is empty) is non-empty and the capability accepts it, [Validate]
    writes nothing, calls neither [Error] nor [http.Error], does not
    panic, and changes nothing but the trace. *)
Theorem Validate_pass (L : Lib) (T : Type) `{CSRF.t T}
    (x : T) (r : Request) (w : World) :
  let hv := header_Get L (Header r) (CSRF.GetHeaderName x) in
  let fv := firstValue (Form r) (CSRF.GetFormName x) in
  let tok := if decide (hv ≠ "") then hv else fv in
  tok ≠ "" →
  CSRF.ValidToken x tok = true →
  let w' := run (Validate L r x) w in
  let evs := if decide (hv ≠ "")
             then [ReqHeaderGet (CSRF.GetHeaderName x); CallValidToken hv]
             else [ReqHeaderGet (CSRF.GetHeaderName x);
                   ReqFormValue (CSRF.GetFormName x); CallValidToken fv] in
  w' = set_trace w (trace w ++ evs) ∧
  resp w' = resp w ∧
  panics (Validate L r x) w = false.
Proof.
  intros hv fv tok Htok Hvalid w' evs. subst hv fv tok w' evs.
  munfold; mcbn.
  repeat (case_decide; mcbn; simplify_eq; try done).
  all: rewrite Hvalid; mcbn.
  all: rewrite <- ?(assoc_L (++)); destruct w; done.
Qed.

Lemma Validate_pass_witness :
  resp (run (Validate sampleLib (H := csrf_CSRF sampleLib)
               (postWithForm issuedToken) issuedCapability)
          (startWorld testOptions newRecorder))
  = newRecorder.
Proof.
  refine (proj1 (proj2 (Validate_pass sampleLib csrf (H := csrf_CSRF sampleLib)
                          issuedCapability (postWithForm issuedToken)
                          (startWorld testOptions newRecorder) _ _))).
  - vm_compute. discriminate.
  - vm_compute. reflexivity.
Defined.

(** X9.  [Validate] touches only the response, and in one of three ways.
    It never writes the options struct, the capability or the mapping;
    it only extends the trace; and the response is left as it was, or is
    what the capability's [Error] made of it, or is what
    [http.Error(w, "Bad Request", 400)] made of it.  It panics only when
    the capability's [Error] does. *)
Theorem Validate_frame (L : Lib) (T : Type) `{CSRF.t T}
    (x : T) (r : Request) (w : World) :
  let w' := run (Validate L r x) w in
  opts w' = opts w ∧ heap w' = heap w ∧ ctxCSRF w' = ctxCSRF w ∧
  trace w `prefix_of` trace w' ∧
  (resp w' = resp w ∨
   CSRF.Error x (resp w) = Some (resp w') ∨
   resp w' = http_Error L (resp w) "Bad Request" 400) ∧
  (panics (Validate L r x) w = true → CSRF.Error x (resp w) = None).
Proof.
  intros w'. subst w'.
  munfold; mcbn.
  repeat (first
    [ case_decide
    | match goal with
      | |- context [CSRF.ValidToken ?x ?t] =>
          destruct (CSRF.ValidToken x t) eqn:?
      | |- context [CSRF.Error ?x ?rw] =>
          destruct (CSRF.Error x rw) eqn:?
      end ]; mcbn; simplify_eq; try done).
  all: rewrite <- ?(assoc_L (++)).
  all: repeat split; try (by eexists); try done; auto.
Qed.

(** X10.  [Validate] behind [Generate]: with the capability [Generate]
    published for a request, [Validate] never panics, whatever request
    and state it runs on, and the only header and form field it reads
    are the configured ones ("X-CSRFToken" and "_csrf" when the
    configuration leaves them empty). *)
Theorem Validate_behind_Generate (L : Lib) (r1 r2 : Request) (sess : Store)
    (o : Options) (w0 : ResponseWriter) (x : csrf) (w : World) :
  published (afterGenerate L r1 sess o w0) = Some x →
  let evs := newEvents w (run (Validate L (H := csrf_CSRF L) r2 x) w) in
  panics (Validate L (H := csrf_CSRF L) r2 x) w = false ∧
  (∀ k, ReqHeaderGet k ∈ evs →
     k = if decide (o_Header o = "") then "X-CSRFToken" else o_Header o) ∧
  (∀ k, ReqFormValue k ∈ evs →
     k = if decide (o_Form o = "") then "_csrf" else o_Form o).
Proof.
  intros Hx evs. subst evs.
  destruct (Generate_publishes L r1 sess o w0)
    as (x' & Hx' & _ & Hh & Hf & _ & He).
  rewrite Hx in Hx'. injection Hx' as <-.
  cbn [defaulted o_Header o_Form] in Hh, Hf.
  revert Hh Hf.
  generalize (if decide (o_Header o = "") then "X-CSRFToken" else o_Header o).
  generalize (if decide (o_Form o = "") then "_csrf" else o_Form o).
  intros fname hname Hh Hf.
  assert (∀ rw, CSRF.Error (t := csrf_CSRF L) x rw ≠ None) as Herr.
  { intros rw. cbv [CSRF.Error csrf_CSRF csrf_Error]. rewrite He. discriminate. }
  val_exec.
  all: try (exfalso; eapply Herr; eassumption).
  all: repeat split; try done.
  all: intros k Hin; in_trace Hin; simplify_eq; first [assumption|reflexivity].
Qed.

Lemma Validate_behind_Generate_witness :
  let w := startWorld testOptions newRecorder in
  panics (Validate sampleLib (H := csrf_CSRF sampleLib)
            (postWithForm "invalid") issuedCapability) w = false ∧
  (∀ k, ReqHeaderGet k
          ∈ newEvents w (run (Validate sampleLib (H := csrf_CSRF sampleLib)
                                (postWithForm "invalid") issuedCapability) w) →
        k = "X-CSRFToken").
Proof.
  intros w.
  destruct (Validate_behind_Generate sampleLib getPrivate
              (postWithForm "invalid") loggedIn testOptions newRecorder
              issuedCapability w) as (Hp & Hh & _); [reflexivity|].
  split; [exact Hp|exact Hh].
Defined.



(** ** Properties of [response.Error] *)

(** X12.  Which content [Error] writes.  The text written is that of
    the second content when there are two or more, of the only content
    when there is one, and "<nil>" when there is none; an error value is
    written as its [Error()], anything else as its %v rendering.  The
    text of [http.StatusText] is never used, and contents after the
    second are ignored.  For a status code [WriteHeader] accepts, on a
    writer nothing was written to, the status becomes the given one and
    the body gets the text and a newline. *)
Theorem response_Error_text (L : Lib) (StatusText : Z → string)
    (w : response) (status : Z) (contents : list Content) :
  100 ≤ status ≤ 999 →
  rwStatus (rWriter w) = None →
  let obj := match contents with
             | _ :: c1 :: _ => c1
             | [c0] => c0
             | [] => CNil
             end in
  let w' := response_Error L StatusText w status contents in
  rWriter w' = http_Error L (rWriter w) (errorText obj) status ∧
  rwStatus (rWriter w') = Some status ∧
  rwBody (rWriter w') =
    rwBody (rWriter w) +:+ errorText obj +:+ String "010"%char "" ∧
  (contents = [] → errorText obj = "<nil>") ∧
  (∀ StatusText2, response_Error L StatusText2 w status contents = w') ∧
  (∀ c0 c1 rest,
     contents = c0 :: c1 :: rest →
     ∀ rest2, response_Error L StatusText w status (c0 :: c1 :: rest2) = w').
Proof.
  intros _ Hst obj w'. subst obj w'.
  assert (∀ v, rwStatus (http_Error L (rWriter w) v status) = Some status ∧
               rwBody (http_Error L (rWriter w) v status)
               = rwBody (rWriter w) +:+ v +:+ String "010"%char "") as Hfresh.
  { intros v. destruct (http_Error_fresh L (rWriter w) v status Hst)
      as (H1 & H2 & _). split; assumption. }
  assert (rWriter (response_Error L StatusText w status contents)
          = http_Error L (rWriter w)
              (errorText match contents with
                         | _ :: c1 :: _ => c1
                         | [c0] => c0
                         | [] => CNil
                         end) status) as Hw.
  { unfold response_Error.
    destruct contents as [|c0 [|c1 rest]]; cbn [rWriter errorText];
      [reflexivity|reflexivity|].
    destruct (bool_decide (fmtV c0 ≠ "") && rSink w); reflexivity. }
  rewrite Hw.
  split; [reflexivity|]. split; [apply Hfresh|]. split; [apply Hfresh|].
  split; [by intros ->|]. split.
  - intros StatusText2. reflexivity.
  - intros c0 c1 rest -> rest2. reflexivity.
Qed.

Lemma response_Error_text_witness :
  rwStatus (rWriter (response_Error sampleLib sampleStatusText freshResponse
                       404 [])) = Some 404 ∧
  rwBody (rWriter (response_Error sampleLib sampleStatusText freshResponse
                     404 [])) = "<nil>" +:+ String "010"%char "".
Proof.
  destruct (response_Error_text sampleLib sampleStatusText freshResponse 404 [])
    as (_ & Hs & Hb & _); [lia|reflexivity|].
  split; [exact Hs|exact Hb].
Defined.


